(** * etna: ensembles, DeepAR forecasting and interval outliers

    A shallow embedding of
      - [etna/ensembles/base.py]            (class [EnsembleMixin]),
      - [etna/models/nn/deepar.py]          (class [DeepARModel]),
      - [etna/analysis/outliers/confidence_interval_outliers.py],
    and the properties that the specification states about them.

    Python objects that are mutated in place live in a store; a method is a
    computation in a state-and-exception monad over that store.  Collaborators
    whose code is outside these files (the pipeline, the trained network, the
    transforms, the interval model) are records of their methods. *)

From Stdlib Require Import ZArith List Floats Lia Bool Sorted.
From stdpp Require Import base option list gmap strings.

#[local] Set Warnings "-inexact-float".

Local Open Scope string_scope.
Local Open Scope list_scope.

(* ===================================================================== *)
(** * Python exceptions and effects *)
(* ===================================================================== *)

Module Py.

(** A raised exception: its class and its message. *)
Record exn := mkExn { exn_class : string; exn_msg : string }.

Definition ValueError (msg : string) : exn := mkExn "ValueError" msg.
Definition KeyError (msg : string) : exn := mkExn "KeyError" msg.
Definition AttributeError (msg : string) : exn := mkExn "AttributeError" msg.
Definition IndexError (msg : string) : exn := mkExn "IndexError" msg.

(** The outcome of a call: a value, or an exception in flight. *)
Inductive result (A : Type) : Type :=
| Ok (a : A)
| Raise (e : exn).
Arguments Ok {A} a.
Arguments Raise {A} e.

Definition is_ok {A} (r : result A) : bool :=
  match r with Ok _ => true | Raise _ => false end.

Definition rbind {A B} (r : result A) (k : A -> result B) : result B :=
  match r with
  | Ok a => k a
  | Raise e => Raise e
  end.

(** A statement sequence over a world [W]: the world is threaded through, and
    an exception stops the sequence while keeping the world reached so far. *)
Definition M (W A : Type) : Type := W -> W * result A.

Definition ret {W A} (a : A) : M W A := fun w => (w, Ok a).
Definition raise {W A} (e : exn) : M W A := fun w => (w, Raise e).
Definition bind {W A B} (c : M W A) (k : A -> M W B) : M W B :=
  fun w =>
    match c w with
    | (w', Ok a) => k a w'
    | (w', Raise e) => (w', Raise e)
    end.
Definition lift {W A} (r : result A) : M W A := fun w => (w, r).
Definition get {W} : M W W := fun w => (w, Ok w).
Definition modify {W} (f : W -> W) : M W unit := fun w => (f w, Ok tt).

End Py.
Import Py.

Declare Scope py_scope.
Delimit Scope py_scope with py.
Notation "x <- c1 ;; c2" := (bind c1 (fun x => c2))
  (at level 100, c1 at next level, right associativity) : py_scope.
Notation "c1 ;; c2" := (bind c1 (fun _ => c2))
  (at level 100, right associativity) : py_scope.
Local Open Scope py_scope.

(* ===================================================================== *)
(** * etna/ensembles/base.py *)
(* ===================================================================== *)

Module EnsembleMixin.

(** [etna.pipeline.Pipeline] as the mixin uses it: the [horizon] attribute,
    the text of [f"{pipeline}"], and the methods [fit] and [forecast], which
    act on the world [W] and may raise.  [TSDataset] is the handle of a
    dataset. *)
Record Pipeline (W TSDataset : Type) := mkPipeline {
  horizon : Z;
  repr : string;
  fit : TSDataset -> M W unit;
  forecast : M W TSDataset
}.
Arguments mkPipeline {W TSDataset}.
Arguments horizon {W TSDataset}.
Arguments repr {W TSDataset}.
Arguments fit {W TSDataset}.
Arguments forecast {W TSDataset}.

(** [etna.loggers.tslogger]: a world that can record a message. *)
Class Logger (W : Type) := tslogger_log : string -> W -> W.

Definition log {W} `{Logger W} (msg : string) : M W unit :=
  modify (tslogger_log msg).

Section Mixin.
Context {W TSDataset : Type} `{Logger W}.

(** [if len(pipelines) < 2: raise ValueError(...)] *)
Definition _validate_pipeline_number
  (pipelines : list (Pipeline W TSDataset)) : result unit :=
  if (length pipelines <? 2)%nat
  then Raise (ValueError "At least two pipelines are expected.")
  else Ok tt.

(** [horizons.pop()] on a Python set: removes and returns some element, and
    raises [KeyError] on the empty set. *)
Definition set_pop (s : gset Z) : result Z :=
  match elements s with
  | [] => Raise (KeyError "pop from an empty set")
  | h :: _ => Ok h
  end.

(** [horizons = set([pipeline.horizon for pipeline in pipelines])] *)
Definition _get_horizon
  (pipelines : list (Pipeline W TSDataset)) : result Z :=
  let horizons : gset Z := list_to_set (map horizon pipelines) in
  if (1 <? size horizons)%nat
  then Raise (ValueError "All the pipelines should have the same horizon.")
  else set_pop horizons.

Definition _fit_pipeline
  (pipeline : Pipeline W TSDataset) (ts : TSDataset)
  : M W (Pipeline W TSDataset) :=
  log ("Start fitting " ++ repr pipeline ++ ".") ;;
  fit pipeline ts ;;
  log ("Pipeline " ++ repr pipeline ++ " is fitted.") ;;
  ret pipeline.

Definition _forecast_pipeline
  (pipeline : Pipeline W TSDataset) : M W TSDataset :=
  log ("Start forecasting with " ++ repr pipeline ++ ".") ;;
  forecast <- forecast pipeline ;;
  log ("Forecast is done with " ++ repr pipeline ++ ".") ;;
  ret forecast.

End Mixin.
End EnsembleMixin.

(* ===================================================================== *)
(** * numpy arrays and pandas frames, as the three files use them *)
(* ===================================================================== *)

Module Frame.

(** A [numpy.datetime64] time stamp (a count of time units) and a [float64]
    cell. *)
Definition timestamp : Type := Z.
Definition value : Type := float.

(** [a > b] and [a < b] on [float64]: both are false when either side is
    NaN. *)
Definition gt (a b : value) : bool := PrimFloat.ltb b a.
Definition lt (a b : value) : bool := PrimFloat.ltb a b.
Definition le (a b : value) : bool := PrimFloat.leb a b.

(** A two-dimensional array: its shape and its cells. *)
Record ndarray2 := mk2 {
  rows : nat;
  cols : nat;
  cell : nat -> nat -> value
}.

(** A three-dimensional array. *)
Record ndarray3 := mk3 {
  dim0 : nat;
  dim1 : nat;
  dim2 : nat;
  cell3 : nat -> nat -> nat -> value
}.

(** [a.T] *)
Definition T (a : ndarray2) : ndarray2 :=
  mk2 (cols a) (rows a) (fun i j => cell a j i).

(** [a[-n:]] for [n = len(...)]: the last [n] rows; all rows when [n] is [0]
    (since [-0] is [0]) or exceeds the number of rows. *)
Definition tail_rows (n : nat) (a : ndarray2) : ndarray2 :=
  let start := if (n =? 0)%nat then 0%nat else (rows a - n)%nat in
  mk2 (rows a - start) (cols a) (fun i j => cell a (start + i) j).

(** [a.transpose((1, 0, 2))] *)
Definition transpose_102 (a : ndarray3) : ndarray3 :=
  mk3 (dim1 a) (dim0 a) (dim2 a) (fun i j k => cell3 a j i k).

(** [a.reshape(a.shape[0], -1)], row-major; numpy cannot infer the [-1] when
    the first dimension is [0]. *)
Definition reshape_rows (a : ndarray3) : result ndarray2 :=
  if (dim0 a =? 0)%nat
  then Raise (ValueError "cannot reshape array of size 0 into shape (0,newaxis)")
  else Ok (mk2 (dim0 a) (dim1 a * dim2 a)
             (fun i c => cell3 a i (c / dim2 a) (c mod dim2 a))).

(** Column [j] of an array, top to bottom. *)
Definition column_of (a : ndarray2) (j : nat) : list value :=
  map (fun i => cell a i j) (seq 0 (rows a)).

(** A column label [(segment, feature)] of the two-level column index. *)
Definition column_key : Type := string * string.

Definition key_eqb (a b : column_key) : bool :=
  String.eqb (fst a) (fst b) && String.eqb (snd a) (snd b).

(** A wide [pandas.DataFrame]: the time index and the labelled columns in
    their order. *)
Record DataFrame := mkDF {
  index : list timestamp;
  columns : list (column_key * list value)
}.

(** [len(df)] *)
Definition len (df : DataFrame) : nat := length (index df).

Definition keys (df : DataFrame) : list column_key := map fst (columns df).

(** [df[key]]: the column under a label, [KeyError] when there is none. *)
Fixpoint find_column (cs : list (column_key * list value)) (k : column_key)
  : option (list value) :=
  match cs with
  | [] => None
  | (k', vs) :: cs' => if key_eqb k' k then Some vs else find_column cs' k
  end.

Definition get_column (df : DataFrame) (k : column_key) : result (list value) :=
  match find_column (columns df) k with
  | Some vs => Ok vs
  | None => Raise (KeyError (snd k))
  end.

(** The columns selected by [pd.IndexSlice[:, "target"]]. *)
Definition is_target (k : column_key) : bool := String.eqb (snd k) "target".

Definition target_keys (df : DataFrame) : list column_key :=
  List.filter is_target (keys df).

(** Writing an array over the target columns: the [j]-th selected column
    receives column [j] of the array. *)
Fixpoint set_target_columns (cs : list (column_key * list value))
  (a : ndarray2) (j : nat) : list (column_key * list value) :=
  match cs with
  | [] => []
  | (k, vs) :: cs' =>
      if is_target k
      then (k, column_of a j) :: set_target_columns cs' a (S j)
      else (k, vs) :: set_target_columns cs' a j
  end.

(** Setting whole columns of a frame without rows enlarges it to the rows
    of the array: the index becomes [0 .. rows - 1], the selected columns
    receive the columns of the array and every other column is filled with
    NaN. *)
Fixpoint enlarge_target_columns (cs : list (column_key * list value))
  (a : ndarray2) (j : nat) : list (column_key * list value) :=
  match cs with
  | [] => []
  | (k, vs) :: cs' =>
      if is_target k
      then (k, column_of a j) :: enlarge_target_columns cs' a (S j)
      else (k, repeat nan (rows a)) :: enlarge_target_columns cs' a j
  end.

(** [df.loc[:, pd.IndexSlice[:, "target"]] = a].  A frame without target
    column is a [KeyError]; the array must have one column for every selected
    column, and as many rows as the frame, unless the frame has no rows:
    then pandas enlarges it.  The messages of the two [ValueError]s are
    abridged (pandas adds the lengths). *)
Definition loc_set_target (df : DataFrame) (a : ndarray2) : result DataFrame :=
  if (length (target_keys df) =? 0)%nat
  then Raise (KeyError "target")
  else if negb (cols a =? length (target_keys df))%nat
  then Raise (ValueError "Must have equal len keys and value when setting with an ndarray")
  else if (rows a =? len df)%nat
  then Ok (mkDF (index df) (set_target_columns (columns df) a 0))
  else if (len df =? 0)%nat
  then Ok (mkDF (map Z.of_nat (seq 0 (rows a)))
             (enlarge_target_columns (columns df) a 0))
  else Raise (ValueError "Length of values does not match length of index").

(** [pd.MultiIndex.from_product([xs, ys])] *)
Definition from_product (xs ys : list string) : list column_key :=
  flat_map (fun x => map (fun y => (x, y)) ys) xs.

(** [pd.DataFrame(a, columns=cs, index=ix)] *)
Definition DataFrame_of_array (a : ndarray2) (cs : list column_key)
  (ix : list timestamp) : result DataFrame :=
  if (rows a =? length ix)%nat && (cols a =? length cs)%nat
  then Ok (mkDF ix (imap (fun j k => (k, column_of a j)) cs))
  else Raise (ValueError "Shape of passed values does not match the indices").

(** [pd.concat((df, other), axis=1)] for two frames over the same index. *)
Definition concat_columns (df other : DataFrame) : DataFrame :=
  mkDF (index df) (columns df ++ columns other).

(** The order of column labels: by segment, then by feature. *)
Definition key_leb (a b : column_key) : bool :=
  match String.compare (fst a) (fst b) with
  | Lt => true
  | Eq => String.leb (snd a) (snd b)
  | Gt => false
  end.

Fixpoint insert_column (c : column_key * list value)
  (cs : list (column_key * list value)) : list (column_key * list value) :=
  match cs with
  | [] => [c]
  | d :: ds => if key_leb (fst c) (fst d) then c :: cs else d :: insert_column c ds
  end.

(** [df.sort_index(axis=1)] *)
Definition sort_index_columns (df : DataFrame) : DataFrame :=
  mkDF (index df) (foldr insert_column [] (columns df)).

(** [df.iloc[k:]] and [df.iloc[:n]] *)
Definition iloc_from (k : nat) (df : DataFrame) : DataFrame :=
  mkDF (drop k (index df)) (map (fun c => (fst c, drop k (snd c))) (columns df)).
Definition iloc_upto (n : nat) (df : DataFrame) : DataFrame :=
  mkDF (take n (index df)) (map (fun c => (fst c, take n (snd c))) (columns df)).

(** [Index.unique()]: the distinct labels in order of first appearance. *)
Fixpoint unique_from (seen : list string) (l : list string) : list string :=
  match l with
  | [] => []
  | x :: l' =>
      if existsb (String.eqb x) seen
      then unique_from seen l'
      else x :: unique_from (x :: seen) l'
  end.
Definition unique (l : list string) : list string := unique_from [] l.

(** Every column is as long as the index. *)
Definition well_formed (df : DataFrame) : Prop :=
  Forall (fun c => length (snd c) = len df) (columns df).

End Frame.
Import Frame.

(* ===================================================================== *)
(** * Datasets and the store *)
(* ===================================================================== *)

Module Dataset.

Section Datasets.
(** [pytorch_forecasting.data.TimeSeriesDataSet], opaque to these files. *)
Context {TimeSeriesDataSet : Type}.

(** The fields of [PytorchForecastingTransform] that [DeepARModel] reads. *)
Record PytorchForecastingTransform := mkPFT {
  pf_dataset_train : TimeSeriesDataSet;
  pf_dataset_predict : option TimeSeriesDataSet
}.

(** A fitted transform of a dataset: whether it is a
    [PytorchForecastingTransform] (and then its fields), and its
    [inverse_transform(df)]. *)
Record Transform := mkTransform {
  as_pf : option PytorchForecastingTransform;
  inverse_transform : DataFrame -> DataFrame
}.

(** [etna.datasets.TSDataset]: the frame, the transforms applied to it
    ([None] before any) and the frequency. *)
Record TSDataset := mkTS {
  df : DataFrame;
  transforms : option (list Transform);
  freq : string
}.

(** Modelled from the spec: [TSDataset.segments] is not in these files; the
    data model keys columns by (segment, feature), and the segments of a view
    are the distinct segment labels of its columns, in column order. *)
Definition segments (ts : TSDataset) : list string :=
  unique (map fst (keys (df ts))).

(** Modelled from the spec: [TSDataset.inverse_transform] is not in these
    files; it un-applies the preprocessing transforms in reverse order. *)
Definition TSDataset_inverse_transform (ts : TSDataset) : TSDataset :=
  match transforms ts with
  | None => ts
  | Some l =>
      mkTS (foldl (fun d t => inverse_transform t d) (df ts) (rev l))
           (transforms ts) (freq ts)
  end.

Definition set_df (ts : TSDataset) (d : DataFrame) : TSDataset :=
  mkTS d (transforms ts) (freq ts).

(** A reference to a dataset object. *)
Definition loc : Type := nat.

(** The store: the dataset objects by reference, the state [Other] of every
    other object (fitted parameters of models, the random number generator
    and the like), and what [tslogger] has recorded. *)
Record World (Other : Type) := mkWorld {
  heap : gmap loc TSDataset;
  other : Other;
  logs : list string
}.
Arguments mkWorld {Other}.
Arguments heap {Other}.
Arguments other {Other}.
Arguments logs {Other}.

Context {Other : Type}.

#[export] Instance World_logger : EnsembleMixin.Logger (World Other) :=
  fun msg w => mkWorld (heap w) (other w) (logs w ++ [msg]).

(** Reading the object behind a reference. *)
Definition read (l : loc) : M (World Other) TSDataset :=
  fun w =>
    match heap w !! l with
    | Some ts => (w, Ok ts)
    | None => (w, Raise (mkExn "ReferenceError" "no such object"))
    end.

(** Mutating the object behind a reference in place. *)
Definition write (l : loc) (ts : TSDataset) : M (World Other) unit :=
  modify (fun w => mkWorld (<[l := ts]> (heap w)) (other w) (logs w)).

(** Creating a new object. *)
Definition alloc (ts : TSDataset) : M (World Other) loc :=
  fun w =>
    let l := fresh (dom (heap w)) in
    (mkWorld (<[l := ts]> (heap w)) (other w) (logs w), Ok l).

(** [copy.deepcopy(ts)]: a new object with a copy of everything the dataset
    owns. *)
Definition deepcopy (l : loc) : M (World Other) loc :=
  ts <- read l ;;
  alloc ts.

End Datasets.
Arguments PytorchForecastingTransform : clear implicits.
Arguments Transform : clear implicits.
Arguments TSDataset : clear implicits.
Arguments World : clear implicits.
Arguments mkWorld {TimeSeriesDataSet Other}.
Arguments heap {TimeSeriesDataSet Other}.
Arguments other {TimeSeriesDataSet Other}.
Arguments logs {TimeSeriesDataSet Other}.

End Dataset.
Import Dataset.

(* ===================================================================== *)
(** * etna/models/nn/deepar.py *)
(* ===================================================================== *)

Module DeepAR.

(** The value of a keyword argument. *)
Inductive pyval :=
| PFloats (l : list value)
| PFloat (x : value)
| PInt (z : Z)
| PStr (s : string).

Section Model.
Context {TimeSeriesDataSet Other : Type}.

(** Python's [f"{quantile:.4g}"]. *)
Variable format_4g : value -> string.

(** [dataset.to_dataloader(train=..., batch_size=...)] *)
Record DataLoader := mkDL {
  dl_dataset : TimeSeriesDataSet;
  dl_train : bool;
  dl_batch_size : Z
}.
Definition to_dataloader (ds : TimeSeriesDataSet) (train : bool)
  (batch_size : Z) : DataLoader := mkDL ds train batch_size.

(** A call into the network library.  The library draws random numbers
    ([predict] samples from the predicted distribution, training initialises
    and shuffles): what the call returns depends on the state of the
    generator, which is part of the state [Other] of the other objects, and
    the call leaves a new state. *)
Definition draw {A} (f : Other -> A * Other)
  : M (World TimeSeriesDataSet Other) A :=
  fun w => (mkWorld (heap w) (snd (f (other w))) (logs w), Ok (fst (f (other w)))).

(** The trained network ([pytorch_forecasting]'s [DeepAR]) by its method
    [predict]: in the default mode it gives an array of shape
    (segments, prediction length), in mode ["quantiles"] an array of shape
    (segments, prediction length, quantiles) for the given [mode_kwargs].
    Two calls on the same data loader need not return the same array. *)
Record LightningModule := mkNet {
  predict : DataLoader -> Other -> ndarray2 * Other;
  predict_quantiles : DataLoader -> gmap string pyval -> Other -> ndarray3 * Other
}.

(** The attributes of a [DeepARModel] object. *)
Record DeepARModel := mkDeepAR {
  batch_size : Z;
  max_epochs : Z;
  gradient_clip_val : value;
  learning_rate : list value;
  cell_type : string;
  hidden_size : Z;
  rnn_layers : Z;
  dropout : value;
  trainer_kwargs : gmap string pyval;
  quantiles_kwargs : gmap string pyval;
  model : option LightningModule
}.

(** [DeepARModel.__init__] with its defaults: the network is [None]. *)
Definition __init__ (batch_size : option Z) (max_epochs : option Z)
  (learning_rate : option (list value))
  (trainer_kwargs quantiles_kwargs : option (gmap string pyval))
  : DeepARModel :=
  mkDeepAR (default 64%Z batch_size) (default 10%Z max_epochs)
    0.1%float (default [0.001%float] learning_rate)
    "LSTM" 10 2 0.1%float
    (default ∅ trainer_kwargs) (default ∅ quantiles_kwargs)
    None.

Definition set_model (self : DeepARModel) (m : option LightningModule)
  : DeepARModel :=
  mkDeepAR (batch_size self) (max_epochs self) (gradient_clip_val self)
    (learning_rate self) (cell_type self) (hidden_size self)
    (rnn_layers self) (dropout self) (trainer_kwargs self)
    (quantiles_kwargs self) m.

(** [etna.models.base.log_decorator] is outside these files: it records the
    call through [tslogger] and then runs the method. *)
Definition log_decorator {A} (name : string)
  (f : M (World TimeSeriesDataSet Other) A) : M (World TimeSeriesDataSet Other) A :=
  EnsembleMixin.log ("Calling method " ++ name ++ " of DeepARModel") ;;
  f.

(** [ts.transforms[-1]] must be a [PytorchForecastingTransform]. *)
Definition _get_pf_transform (ts : TSDataset TimeSeriesDataSet)
  : result (PytorchForecastingTransform TimeSeriesDataSet) :=
  let invalid :=
    ValueError "Not valid usage of transforms, please add PytorchForecastingTransform at the end of transforms" in
  match transforms ts with
  | None => Raise invalid
  | Some l =>
      match last l with
      | None => Raise (IndexError "list index out of range")
      | Some t =>
          match as_pf t with
          | Some pf => Ok pf
          | None => Raise invalid
          end
      end
  end.

(** The network that [DeepAR.from_dataset] builds from the training data and
    the hyper-parameters and that [pl.Trainer.fit] then trains. *)
Variable train : DeepARModel -> DataLoader -> Other -> LightningModule * Other.

(** [fit]: the new state of [self] is returned. *)
Definition fit (self : DeepARModel) (ts : loc)
  : M (World TimeSeriesDataSet Other) DeepARModel :=
  log_decorator "fit" (
    ts_v <- read ts ;;
    pf_transform <- lift (_get_pf_transform ts_v) ;;
    let train_dataloader :=
      to_dataloader (pf_dataset_train pf_transform) true (batch_size self) in
    net <- draw (train self train_dataloader) ;;
    ret (set_model self (Some net))).

(** [ts.inverse_transform()] on the object behind [ts]. *)
Definition inverse_transform_in_place (ts : loc)
  : M (World TimeSeriesDataSet Other) unit :=
  ts_v <- read ts ;;
  write ts (TSDataset_inverse_transform ts_v).

(** The interval branch of [forecast]. *)
Definition add_quantile_columns (net : LightningModule)
  (self : DeepARModel) (prediction_dataloader : DataLoader)
  (ts : loc) (quantiles : list value)
  : M (World TimeSeriesDataSet Other) unit :=
  let mode_kwargs := quantiles_kwargs self ∪ {[ "quantiles" := PFloats quantiles ]} in
  quantiles_predicts <- draw (predict_quantiles net prediction_dataloader mode_kwargs) ;;
  let quantiles_predicts := transpose_102 quantiles_predicts in
  quantiles_predicts <- lift (reshape_rows quantiles_predicts) ;;
  ts_v <- read ts ;;
  let df0 := df ts_v in
  let segments := segments ts_v in
  let quantile_columns := map (fun q => ("target_" ++ format_4g q)%string) quantiles in
  let columns := from_product segments quantile_columns in
  quantiles_df <- lift (DataFrame_of_array quantiles_predicts columns (index df0)) ;;
  let df1 := concat_columns df0 quantiles_df in
  let df2 := sort_index_columns df1 in
  write ts (set_df ts_v df2).

(** [forecast]: the view behind [ts] is filled in place and [ts] itself is
    returned. *)
Definition forecast (self : DeepARModel) (ts : loc)
  (prediction_interval : bool) (quantiles : list value)
  : M (World TimeSeriesDataSet Other) loc :=
  log_decorator "forecast" (
    ts_v <- read ts ;;
    pf_transform <- lift (_get_pf_transform ts_v) ;;
    match pf_dataset_predict pf_transform with
    | None =>
        raise (ValueError
          "The future is not generated! Generate future using TSDataset make_future before calling forecast method!")
    | Some ds =>
        let prediction_dataloader := to_dataloader ds false (batch_size self * 2) in
        match model self with
        | None => raise (AttributeError "'NoneType' object has no attribute 'predict'")
        | Some net =>
            predicts <- draw (predict net prediction_dataloader) ;;
            df1 <- lift (loc_set_target (df ts_v)
                           (tail_rows (len (df ts_v)) (T predicts))) ;;
            write ts (set_df ts_v df1) ;;
            (if prediction_interval
             then add_quantile_columns net self prediction_dataloader ts quantiles
             else ret tt) ;;
            inverse_transform_in_place ts ;;
            ret ts
        end
    end).

End Model.
Arguments DataLoader : clear implicits.
Arguments LightningModule : clear implicits.
Arguments DeepARModel : clear implicits.

End DeepAR.

(* ===================================================================== *)
(** * etna/analysis/outliers/confidence_interval_outliers.py *)
(* ===================================================================== *)

Module Outliers.

Section Outliers.
Context {TimeSeriesDataSet Other : Type}.
#[local] Abbreviation W := (World TimeSeriesDataSet Other).

(** An instance of the model class ([ProphetModel], [SARIMAXModel]) by the
    two methods called on it: [fit(ts)] and
    [forecast(ts, confidence_interval=..., interval_width=...)]. *)
Record IntervalModel := mkIntervalModel {
  im_fit : loc -> M W unit;
  im_forecast : loc -> bool -> value -> M W loc
}.

(** Calling the model class with the keyword parameters: the constructor is
    handed no dataset; it acts on the state of the other objects and may
    raise. *)
Definition ModelClass : Type := Other -> Other * result IntervalModel.

Definition construct (model : ModelClass) : M W IntervalModel :=
  fun w =>
    let (o, r) := model (other w) in
    (mkWorld (heap w) o (logs w), r).

(** Modelled from the spec: [TSDataset.__getitem__] is not in these files;
    [ts[:, :, [column]]] is the column-sliced copy holding the columns of
    that feature, and a label that selects nothing is a [KeyError]. *)
Definition getitem_feature (d : DataFrame) (column : string) : result DataFrame :=
  match List.filter (fun c => String.eqb (snd (fst c)) column) (columns d) with
  | [] => Raise (KeyError column)
  | cs => Ok (mkDF (index d) cs)
  end.

(** Modelled from the spec: [confidence_interval[:, segment, :]] is the
    column-sliced copy holding the columns of that segment. *)
Definition getitem_segment (d : DataFrame) (segment : string) : result DataFrame :=
  match List.filter (fun c => String.eqb (fst (fst c)) segment) (columns d) with
  | [] => Raise (KeyError segment)
  | cs => Ok (mkDF (index d) cs)
  end.

(** [new_df.columns = pd.MultiIndex.from_tuples(new_columns_tuples, ...)] *)
Definition set_columns (d : DataFrame) (labels : list column_key) : DataFrame :=
  mkDF (index d) (zip_with (fun k c => (k, snd c)) labels (columns d)).

(** Modelled from the spec: the constructor [TSDataset(df, freq=...)] is not
    in these files; it makes a new dataset object that owns the frame and has
    no transforms. *)
Definition TSDataset_new (d : DataFrame) (freq : string) : M W loc :=
  alloc (mkTS d None freq).

Definition create_ts_by_column (ts : loc) (column : string) : M W loc :=
  ts_v <- read ts ;;
  new_df <- lift (getitem_feature (df ts_v) column) ;;
  let new_columns_tuples := map (fun x => (fst x, "target")) (keys new_df) in
  let new_df := set_columns new_df new_columns_tuples in
  TSDataset_new new_df (freq ts_v).

(** [time_points[anomalies_mask]]: the mask must be as long as the array. *)
Definition boolean_index (a : list timestamp) (mask : list bool)
  : result (list timestamp) :=
  if (length mask =? length a)%nat
  then Ok (map fst (List.filter snd (zip a mask)))
  else Raise (IndexError "boolean index did not match indexed array").

(** The body of the loop over the segments. *)
Definition segment_outliers (time_points : list timestamp)
  (confidence_interval : DataFrame) (segment : string)
  : result (list timestamp) :=
  rbind (getitem_segment confidence_interval segment) (fun segment_slice =>
  rbind (get_column segment_slice (segment, "target")) (fun target =>
  rbind (get_column segment_slice (segment, "target_upper")) (fun target_upper =>
  rbind (get_column segment_slice (segment, "target_lower")) (fun target_lower =>
  let anomalies_mask :=
    zip_with orb (zip_with gt target target_upper)
                 (zip_with lt target target_lower) in
  boolean_index time_points anomalies_mask)))).

Fixpoint outliers_loop (time_points : list timestamp)
  (confidence_interval : DataFrame) (segments : list string)
  (outliers_per_segment : gmap string (list timestamp))
  : result (gmap string (list timestamp)) :=
  match segments with
  | [] => Ok outliers_per_segment
  | segment :: rest =>
      rbind (segment_outliers time_points confidence_interval segment)
        (fun l => outliers_loop time_points confidence_interval rest
                    (<[segment := l]> outliers_per_segment))
  end.

(** The statements before the loop: they give [time_points], [ts_inner] and
    [confidence_interval]. *)
Definition predict_interval (ts : loc) (model : ModelClass)
  (interval_width : value) (in_column : string)
  : M W (list timestamp * loc * loc) :=
  ts_inner <- (if String.eqb in_column "target"
               then ret ts
               else create_ts_by_column ts in_column) ;;
  ts_v <- read ts ;;
  let time_points := index (df ts_v) in
  model_instance <- construct model ;;
  im_fit model_instance ts_inner ;;
  copy <- deepcopy ts_inner ;;
  confidence_interval <- im_forecast model_instance copy true interval_width ;;
  ret (time_points, ts_inner, confidence_interval).

Definition get_anomalies_confidence_interval (ts : loc) (model : ModelClass)
  (interval_width : value) (in_column : string)
  : M W (gmap string (list timestamp)) :=
  r <- predict_interval ts model interval_width in_column ;;
  let '(time_points, ts_inner, confidence_interval) := r in
  inner_v <- read ts_inner ;;
  ci_v <- read confidence_interval ;;
  lift (outliers_loop time_points (df ci_v) (segments inner_v) ∅).

End Outliers.
Arguments IntervalModel : clear implicits.
Arguments ModelClass : clear implicits.

End Outliers.

(* ===================================================================== *)
(** * The vocabulary of the statements *)
(* ===================================================================== *)

Module DeepARSpec.
Import EnsembleMixin DeepAR.

Section Vocabulary.
Context {TimeSeriesDataSet Other : Type}.
Variable format_4g : value -> string.

#[local] Abbreviation W := (World TimeSeriesDataSet Other).
#[local] Abbreviation Model := (DeepARModel TimeSeriesDataSet Other).
#[local] Abbreviation Net := (LightningModule TimeSeriesDataSet Other).

(** The store after [log_decorator] has recorded the call. *)
Definition called (name : string) (w : W) : W :=
  tslogger_log ("Calling method " ++ name ++ " of DeepARModel") w.

(** The data loader that [forecast] hands to the network. *)
Definition prediction_dataloader (self : Model) (ds : TimeSeriesDataSet)
  : DataLoader TimeSeriesDataSet :=
  to_dataloader ds false (batch_size self * 2).

(** The keyword arguments of the quantile prediction. *)
Definition mode_kwargs (self : Model) (quantiles : list value)
  : gmap string pyval :=
  quantiles_kwargs self ∪ {[ "quantiles" := PFloats quantiles ]}.

(** The point predictions that the network returns to a call of [forecast]
    made when the other objects are in state [o], and the state that this
    draw leaves. *)
Definition point_predictions (self : Model) (net : Net)
  (ds : TimeSeriesDataSet) (o : Other) : ndarray2 :=
  fst (predict net (prediction_dataloader self ds) o).

Definition state_after_point (self : Model) (net : Net)
  (ds : TimeSeriesDataSet) (o : Other) : Other :=
  snd (predict net (prediction_dataloader self ds) o).

(** The quantile predictions of the same call: they are drawn after the
    point predictions. *)
Definition quantile_predictions (self : Model) (net : Net)
  (ds : TimeSeriesDataSet) (quantiles : list value) (o : Other) : ndarray3 :=
  fst (predict_quantiles net (prediction_dataloader self ds)
         (mode_kwargs self quantiles) (state_after_point self net ds o)).

Definition state_after_interval (self : Model) (net : Net)
  (ds : TimeSeriesDataSet) (quantiles : list value) (o : Other) : Other :=
  snd (predict_quantiles net (prediction_dataloader self ds)
         (mode_kwargs self quantiles) (state_after_point self net ds o)).

(** The frame of quantile columns that the interval branch builds for a view
    with frame [d]. *)
Definition quantiles_frame (self : Model) (net : Net)
  (ds : TimeSeriesDataSet) (o : Other) (ts_v : TSDataset TimeSeriesDataSet)
  (d : DataFrame) (quantiles : list value) : result DataFrame :=
  rbind (reshape_rows (transpose_102
           (quantile_predictions self net ds quantiles o)))
    (fun a =>
       DataFrame_of_array a
         (from_product (segments (set_df ts_v d))
            (map (fun q => ("target_" ++ format_4g q)%string) quantiles))
         (index d)).

(** The quantile predictions after [transpose((1, 0, 2))] and
    [reshape(shape[0], -1)]: row [i] is the time step, column
    [s * quantiles + k] is quantile [k] of series [s]. *)
Definition quantile_array (self : Model) (net : Net)
  (ds : TimeSeriesDataSet) (o : Other) (quantiles : list value) : ndarray2 :=
  let qp := quantile_predictions self net ds quantiles o in
  mk2 (dim1 qp) (dim0 qp * dim2 qp)
    (fun i c => cell3 qp (c / dim2 qp) i (c mod dim2 qp)).

Definition quantile_columns (quantiles : list value) : list string :=
  map (fun q => ("target_" ++ format_4g q)%string) quantiles.

(** A function on frames that leaves every column other than a target
    column where it is, with its values. *)
Definition keeps_other_columns (f : DataFrame -> DataFrame) : Prop :=
  forall d k vs,
    is_target k = false -> In (k, vs) (columns d) -> In (k, vs) (columns (f d)).

(** A function on frames that drops no column label. *)
Definition keeps_keys (f : DataFrame -> DataFrame) : Prop :=
  forall d k, In k (keys d) -> In k (keys (f d)).

(** A function on frames that changes the outcome of no column look-up. *)
Definition keeps_lookups (f : DataFrame -> DataFrame) : Prop :=
  forall d k, find_column (columns (f d)) k = find_column (columns d) k.

(** The shapes that let the point forecast be written into a view with frame
    [d]: the view has rows, the network predicts at least as many steps as
    the view has rows, for at least one series, and one series per target
    column. *)
Definition point_shape_ok (self : Model) (net : Net)
  (ds : TimeSeriesDataSet) (o : Other) (d : DataFrame) : Prop :=
  let p := point_predictions self net ds o in
  (0 < len d)%nat /\ (len d <= cols p)%nat /\ rows p = length (target_keys d)
  /\ (0 < rows p)%nat.

(** The shapes that let the quantile columns be built: one step per row, and
    as many values per step as there are (segment, quantile) pairs. *)
Definition interval_shape_ok (self : Model) (net : Net)
  (ds : TimeSeriesDataSet) (o : Other) (ts_v : TSDataset TimeSeriesDataSet)
  (quantiles : list value) : Prop :=
  let qp := quantile_predictions self net ds quantiles o in
  dim1 qp = len (df ts_v)
  /\ (dim0 qp * dim2 qp = length (segments ts_v) * length quantiles)%nat.

End Vocabulary.

End DeepARSpec.

Module OutliersSpec.
Import Outliers.

Section Vocabulary.
Context {TimeSeriesDataSet Other : Type}.

#[local] Abbreviation W' := (World TimeSeriesDataSet Other).
#[local] Abbreviation IModel := (IntervalModel TimeSeriesDataSet Other).

(** The time stamps that the mask built from three columns selects. *)
Definition flagged (time_points : list timestamp)
  (target upper lower : list value) : list timestamp :=
  map fst (List.filter snd
    (zip time_points
       (zip_with orb (zip_with gt target upper) (zip_with lt target lower)))).

(** The precondition on [fit]: it changes no dataset object (it mutates
    only the parameters of the model, which live in the rest of the store). *)
Definition fit_touches_no_dataset (mi : IModel) : Prop :=
  forall l (w : W'), heap (fst (im_fit mi l w)) = heap w.

(** The in-place forecast: of the dataset objects that exist, it changes
    only the one it is given. *)
Definition forecast_in_place (mi : IModel) : Prop :=
  forall l b iw (w : W') l' v,
    l' <> l -> heap w !! l' = Some v ->
    heap (fst (im_forecast mi l b iw w)) !! l' = Some v.

End Vocabulary.

End OutliersSpec.

(* ===================================================================== *)
(** * Concrete instances *)
(* ===================================================================== *)

(** ** Concrete pipelines: a world that is the list of logged messages *)

Module EnsembleExamples.
Import EnsembleMixin.

#[export] Instance messages_logger : Logger (list string) :=
  fun msg w => w ++ [msg].

(** A pipeline with the given horizon whose [fit] and [forecast] succeed
    ([ok = true]) or raise. *)
Definition sample_pipeline (h : Z) (ok : bool) : Pipeline (list string) nat :=
  mkPipeline h "Pipeline(model = NaiveModel(lag = 1, ), transforms = [], horizon = 5, )"
    (fun _ => if ok then ret tt else raise (ValueError "fit failed"))
    (if ok then ret 7%nat else raise (ValueError "forecast failed")).

End EnsembleExamples.

(** ** A concrete network, view and store *)

Module DeepARExamples.
Import DeepAR.

(** The two quantile levels of the default interval, as [.4g] prints them. *)
Definition sample_format (q : value) : string :=
  if PrimFloat.eqb q 0.025 then "0.025"
  else if PrimFloat.eqb q 0.975 then "0.975"
  else "0.5".

(** A network for one series and two steps: the point predictions are [p0]
    and [p1]; the two quantile predictions are 20 and 30 at both steps. *)
Definition sample_net (p0 p1 : value) : LightningModule nat unit :=
  mkNet
    (fun _ o => (mk2 1 2 (fun _ t => match t with O => p0 | _ => p1 end), o))
    (fun _ _ o =>
       (mk3 1 2 2 (fun _ _ k => match k with O => 20%float | _ => 30%float end),
        o)).

Definition sample_model {Other} (net : LightningModule nat Other)
  : DeepARModel nat Other :=
  set_model (__init__ None None None None None) (Some net).

Definition sample_transform : Transform nat :=
  mkTransform (Some (mkPFT 0%nat (Some 1%nat))) (fun d => d).

(** The future range of two time stamps for the segment ["a"]: a known
    feature and the target still to be filled. *)
Definition sample_frame : DataFrame :=
  mkDF [100%Z; 101%Z]
    [(("a", "feature"), [5%float; 6%float]);
     (("a", "target"), [nan; nan])].

Definition sample_view : TSDataset nat :=
  mkTS sample_frame (Some [sample_transform]) "D".

(** The same view restricted to its first row, and to its last row. *)
Definition sample_prefix_view : TSDataset nat :=
  set_df sample_view (iloc_upto 1 sample_frame).
Definition sample_suffix_view : TSDataset nat :=
  set_df sample_view (iloc_from 1 sample_frame).

(** A store that holds one dataset, at reference 0. *)
Definition sample_world (v : TSDataset nat) : World nat unit :=
  mkWorld {[ 0%nat := v ]} tt [].

Definition sample_forecast (net : LightningModule nat unit) (v : TSDataset nat)
  (prediction_interval : bool) : World nat unit * result loc :=
  forecast sample_format (sample_model net) 0%nat prediction_interval
    [0.025%float; 0.975%float] (sample_world v).

(** The frame of the dataset at reference 0 after a run. *)
Definition frame_after (run : World nat unit * result loc) : option DataFrame :=
  df <$> (heap (fst run) !! 0%nat).

(** [.4g] on levels that it prints as 0.025 or as 0.975: those below one
    half, and the others. *)
Definition rounding_format (q : value) : string :=
  if PrimFloat.ltb q 0.5 then "0.025" else "0.975".

(** A model built with a ["quantiles"] entry in [quantiles_kwargs]. *)
Definition kwargs_model (net : LightningModule nat unit) : DeepARModel nat unit :=
  set_model
    (__init__ None None None None
       (Some {[ "quantiles" := PFloats [0.025%float; 0.975%float] ]}))
    (Some net).

(** Two views that are not ready: one with an empty list of transforms, one
    whose transform has not generated the future. *)
Definition bare_view : TSDataset nat := mkTS sample_frame (Some []) "D".
Definition unprepared_view : TSDataset nat :=
  mkTS sample_frame
    (Some [mkTransform (Some (mkPFT 0%nat None)) (fun d => d)]) "D".


(** A network that samples.  The state of the generator is the number of
    draws made so far: the first draw predicts 25 and 26 for the two steps,
    every later draw 35 and 36. *)
Definition sampling_net : LightningModule nat nat :=
  mkNet
    (fun _ o =>
       (mk2 1 2 (fun _ t =>
                   match o, t with
                   | O, O => 25%float
                   | O, _ => 26%float
                   | _, O => 35%float
                   | _, _ => 36%float
                   end),
        S o))
    (fun _ _ o =>
       (mk3 1 2 2 (fun _ _ k => match k with O => 20%float | _ => 30%float end),
        S o)).

(** A store with two views of the same future range, as [make_future] gives
    them: the whole range at reference 0, its last row at reference 1; no
    draw has been made. *)
Definition two_views : World nat nat :=
  mkWorld {[ 0%nat := sample_view; 1%nat := sample_suffix_view ]} 0%nat [].

End DeepARExamples.

(** ** A concrete interval model and dataset *)

Module OutlierExamples.
Import Outliers.

(** An interval model whose [fit] does nothing and whose forecast adds, in
    place, the bounds 0 and 10 for every segment of the view. *)
Definition constant_bounds (v : TSDataset nat) : list (column_key * list value) :=
  flat_map
    (fun s => [((s, "target_lower"), repeat 0%float (len (df v)));
               ((s, "target_upper"), repeat 10%float (len (df v)))])
    (segments v).

Definition sample_interval_model : IntervalModel nat unit :=
  mkIntervalModel
    (fun _ => ret tt)
    (fun l _ _ =>
       bind (read l) (fun v =>
       bind (write l (set_df v (mkDF (index (df v))
                                  (columns (df v) ++ constant_bounds v))))
            (fun _ => ret l))).

Definition sample_class : ModelClass nat unit :=
  fun o => (o, Ok sample_interval_model).

(** Three time stamps of the segment ["a"]: 5 lies within the bounds, 50
    above and -3 below; the feature ["exog"] stays within the bounds. *)
Definition sample_history : TSDataset nat :=
  mkTS (mkDF [1%Z; 2%Z; 3%Z]
          [(("a", "exog"), [10%float; 0%float; 10%float]);
           (("a", "target"), [5%float; 50%float; (-3)%float])])
       None "D".

Definition sample_store : World nat unit :=
  mkWorld {[ 0%nat := sample_history ]} tt [].

(** An interval model whose forecast returns the view as it is, without
    bounds, and a model class whose constructor raises. *)
Definition bare_interval_model : IntervalModel nat unit :=
  mkIntervalModel (fun _ => ret tt) (fun l _ _ => ret l).

Definition bare_class : ModelClass nat unit :=
  fun o => (o, Ok bare_interval_model).

Definition failing_class : ModelClass nat unit :=
  fun o => (o, Raise (ValueError "unknown parameter")).

(** Two segments, and an interval model whose forecast adds the bounds 0
    and 10 for the segment ["a"] alone. *)
Definition two_segment_history : TSDataset nat :=
  mkTS (mkDF [1%Z; 2%Z; 3%Z]
          [(("a", "target"), [5%float; 50%float; (-3)%float]);
           (("b", "target"), [1%float; 2%float; 3%float])])
       None "D".

Definition two_segment_store : World nat unit :=
  mkWorld {[ 0%nat := two_segment_history ]} tt [].

Definition partial_interval_model : IntervalModel nat unit :=
  mkIntervalModel
    (fun _ => ret tt)
    (fun l _ _ =>
       bind (read l) (fun v =>
       bind (write l (set_df v (mkDF (index (df v))
                                  (columns (df v)
                                   ++ [(("a", "target_lower"),
                                        repeat 0%float (len (df v)));
                                       (("a", "target_upper"),
                                        repeat 10%float (len (df v)))]))))
            (fun _ => ret l))).

Definition partial_class : ModelClass nat unit :=
  fun o => (o, Ok partial_interval_model).

(** A forecast view of two time stamps whose target is missing at the first
    and lies above the bounds at the second. *)
Definition gappy_frame : DataFrame :=
  mkDF [1%Z; 2%Z]
    [(("a", "target"), [nan; 50%float]);
     (("a", "target_lower"), [0%float; 0%float]);
     (("a", "target_upper"), [10%float; 10%float])].


End OutlierExamples.

(* ===================================================================== *)
(** * Properties of the ensemble mixin *)
(* ===================================================================== *)

Section EnsembleProperties.
Import EnsembleMixin.
Context {W TSDataset : Type} `{Logger W}.
Implicit Types (pipelines : list (Pipeline W TSDataset)).

Lemma horizons_singleton pipelines (h : Z) :
  pipelines <> [] ->
  (forall p, In p pipelines -> horizon p = h) ->
  (list_to_set (map horizon pipelines) : gset Z) = {[ h ]}.
Proof.
  intros Hne Hall. apply set_eq. intros x.
  rewrite elem_of_list_to_set, elem_of_singleton, list_elem_of_In, in_map_iff.
  split.
  - intros (p & <- & Hp). now apply Hall.
  - intros ->. destruct pipelines as [|p ps]; [congruence|].
    exists p. split; [apply Hall|]; now left.
Qed.

Lemma horizons_two pipelines p q :
  In p pipelines -> In q pipelines -> horizon p <> horizon q ->
  (1 < size (list_to_set (map horizon pipelines) : gset Z))%nat.
Proof.
  intros Hp Hq Hne.
  assert (Hsub : ({[ horizon p ]} ∪ {[ horizon q ]} : gset Z)
                   ⊆ list_to_set (map horizon pipelines)).
  { intros x. rewrite elem_of_union, !elem_of_singleton, elem_of_list_to_set,
      list_elem_of_In, in_map_iff.
    intros [-> | ->]; eauto. }
  apply subseteq_size in Hsub.
  rewrite size_union in Hsub by set_solver.
  rewrite !size_singleton in Hsub. lia.
Qed.

(** C3: fewer than two pipelines (none, or exactly one) is a [ValueError];
    two or more pass the check. *)
Theorem validate_pipeline_number_spec pipelines :
  ((length pipelines < 2)%nat ->
     _validate_pipeline_number pipelines
     = Raise (ValueError "At least two pipelines are expected."))
  /\ ((2 <= length pipelines)%nat ->
        _validate_pipeline_number pipelines = Ok tt)
  /\ _validate_pipeline_number ([] : list (Pipeline W TSDataset))
     = Raise (ValueError "At least two pipelines are expected.")
  /\ (forall p : Pipeline W TSDataset,
        _validate_pipeline_number [p]
        = Raise (ValueError "At least two pipelines are expected.")).
Proof.
  unfold _validate_pipeline_number. repeat split; try reflexivity.
  - intros Hlt. apply Nat.ltb_lt in Hlt. now rewrite Hlt.
  - intros Hge. apply Nat.ltb_ge in Hge. now rewrite Hge.
Qed.

(** C2: pipelines with two different horizons are a [ValueError]; a list
    of pipelines that all have horizon [h] resolves to [h].  The list holds
    at least one pipeline: [_validate_pipeline_number] has let it through. *)
Theorem get_horizon_spec pipelines :
  ((exists p q, In p pipelines /\ In q pipelines /\ horizon p <> horizon q) ->
     _get_horizon pipelines
     = Raise (ValueError "All the pipelines should have the same horizon."))
  /\ (forall h : Z,
        pipelines <> [] ->
        (forall p, In p pipelines -> horizon p = h) ->
        _get_horizon pipelines = Ok h).
Proof.
  unfold _get_horizon. split.
  - intros (p & q & Hp & Hq & Hne).
    pose proof (horizons_two pipelines p q Hp Hq Hne) as Hsz.
    apply Nat.ltb_lt in Hsz. cbv zeta. now rewrite Hsz.
  - intros h Hne Hall. cbv zeta.
    rewrite (horizons_singleton pipelines h Hne Hall).
    rewrite size_singleton. simpl.
    unfold set_pop. now rewrite elements_singleton.
Qed.

(** C6: an exception of [pipeline.fit] or [pipeline.forecast] leaves the
    helper as it is, with no result; on success the helper returns the
    pipeline it was given, respectively the forecast of the pipeline. *)
Theorem pipeline_helpers_propagate (pipeline : Pipeline W TSDataset)
  (ts : TSDataset) (w : W) :
  let w_fit := tslogger_log ("Start fitting " ++ repr pipeline ++ ".") w in
  let w_fc := tslogger_log ("Start forecasting with " ++ repr pipeline ++ ".") w in
  (forall w' e, fit pipeline ts w_fit = (w', Raise e) ->
     _fit_pipeline pipeline ts w = (w', Raise e))
  /\ (forall w' u, fit pipeline ts w_fit = (w', Ok u) ->
        _fit_pipeline pipeline ts w
        = (tslogger_log ("Pipeline " ++ repr pipeline ++ " is fitted.") w',
           Ok pipeline))
  /\ (forall w' e, forecast pipeline w_fc = (w', Raise e) ->
        _forecast_pipeline pipeline w = (w', Raise e))
  /\ (forall w' fc, forecast pipeline w_fc = (w', Ok fc) ->
        _forecast_pipeline pipeline w
        = (tslogger_log ("Forecast is done with " ++ repr pipeline ++ ".") w',
           Ok fc)).
Proof.
  intros w_fit w_fc.
  unfold _fit_pipeline, _forecast_pipeline, log, modify, bind, ret.
  fold w_fit w_fc.
  repeat split; intros w' x Hx; now rewrite Hx.
Qed.

End EnsembleProperties.


Section EnsembleWitnesses.
Import EnsembleMixin EnsembleExamples.

Lemma validate_pipeline_number_witness :
  _validate_pipeline_number [sample_pipeline 5 true]
  = Raise (ValueError "At least two pipelines are expected.")
  /\ _validate_pipeline_number [sample_pipeline 5 true; sample_pipeline 5 true]
     = Ok tt.
Proof.
  split.
  - apply (proj1 (validate_pipeline_number_spec [sample_pipeline 5 true])).
    simpl. lia.
  - apply (proj1 (proj2 (validate_pipeline_number_spec
                           [sample_pipeline 5 true; sample_pipeline 5 true]))).
    simpl. lia.
Defined.

(** Horizons 5, 5, 7 are refused and horizons 5, 5, 5 resolve to 5. *)
Lemma get_horizon_witness :
  _get_horizon [sample_pipeline 5 true; sample_pipeline 5 true; sample_pipeline 7 true]
  = Raise (ValueError "All the pipelines should have the same horizon.")
  /\ _get_horizon [sample_pipeline 5 true; sample_pipeline 5 true; sample_pipeline 5 true]
     = Ok 5%Z.
Proof.
  split.
  - apply (proj1 (get_horizon_spec _)).
    exists (sample_pipeline 5 true), (sample_pipeline 7 true).
    simpl. repeat split; auto; discriminate.
  - apply (proj2 (get_horizon_spec _) 5%Z); [discriminate|].
    simpl. intros p [<-|[<-|[<-|[]]]]; reflexivity.
Defined.

Lemma pipeline_helpers_witness :
  _fit_pipeline (sample_pipeline 5 false) 0%nat []
  = ([("Start fitting " ++ repr (sample_pipeline 5 false) ++ ".")%string],
     Raise (ValueError "fit failed"))
  /\ snd (_fit_pipeline (sample_pipeline 5 true) 0%nat [])
     = Ok (sample_pipeline 5 true)
  /\ snd (_forecast_pipeline (sample_pipeline 5 false) [])
     = Raise (ValueError "forecast failed")
  /\ snd (_forecast_pipeline (sample_pipeline 5 true) []) = Ok 7%nat.
Proof.
  split; [|split; [|split]].
  - apply (proj1 (pipeline_helpers_propagate (sample_pipeline 5 false) 0%nat [])).
    reflexivity.
  - erewrite (proj1 (proj2 (pipeline_helpers_propagate
                              (sample_pipeline 5 true) 0%nat [])));
      reflexivity.
  - erewrite (proj1 (proj2 (proj2 (pipeline_helpers_propagate
                                     (sample_pipeline 5 false) 0%nat []))));
      reflexivity.
  - erewrite (proj2 (proj2 (proj2 (pipeline_helpers_propagate
                                     (sample_pipeline 5 true) 0%nat []))));
      reflexivity.
Defined.

End EnsembleWitnesses.

(* ===================================================================== *)
(** * Facts about arrays and frames *)
(* ===================================================================== *)

Section FrameFacts.

Lemma key_eqb_eq (a b : column_key) : key_eqb a b = true <-> a = b.
Proof.
  destruct a as [a1 a2], b as [b1 b2]. unfold key_eqb. simpl.
  rewrite andb_true_iff, !String.eqb_eq. split.
  - now intros [-> ->].
  - intros [= -> ->]. now split.
Qed.

Lemma key_eqb_refl (a : column_key) : key_eqb a a = true.
Proof. now apply key_eqb_eq. Qed.

Lemma key_eqb_neq (a b : column_key) : key_eqb a b = false <-> a <> b.
Proof.
  rewrite <- key_eqb_eq. destruct (key_eqb a b); split; congruence.
Qed.

Lemma string_compare_refl (s : string) : String.compare s s = Eq.
Proof.
  pose proof (String.compare_antisym s s) as Ha.
  destruct (String.compare s s); simpl in Ha; congruence.
Qed.

Lemma string_leb_refl (s : string) : String.leb s s = true.
Proof. unfold String.leb. now rewrite string_compare_refl. Qed.

Lemma key_leb_refl (a : column_key) : key_leb a a = true.
Proof.
  unfold key_leb. rewrite string_compare_refl. apply string_leb_refl.
Qed.

Lemma find_column_app cs1 cs2 k :
  find_column (cs1 ++ cs2) k
  = match find_column cs1 k with
    | Some vs => Some vs
    | None => find_column cs2 k
    end.
Proof.
  induction cs1 as [|[k' vs] cs1 IH]; simpl; [reflexivity|].
  now destruct (key_eqb k' k).
Qed.

Lemma find_column_None cs k :
  ~ In k (map fst cs) -> find_column cs k = None.
Proof.
  induction cs as [|[k' vs] cs IH]; simpl; [reflexivity|].
  intros Hn. destruct (key_eqb k' k) eqn:E.
  - apply key_eqb_eq in E. tauto.
  - apply IH. tauto.
Qed.

Lemma find_column_In cs k vs :
  find_column cs k = Some vs -> In (k, vs) cs.
Proof.
  induction cs as [|[k' vs'] cs IH]; simpl; [discriminate|].
  destruct (key_eqb k' k) eqn:E.
  - apply key_eqb_eq in E. intros [= ->]. subst. now left.
  - intros Hf. right. now apply IH.
Qed.

(** Inserting a column into a sorted run does not change what a label finds,
    except for the label of the inserted column itself. *)
Lemma find_column_insert c cs k :
  find_column (insert_column c cs) k
  = if key_eqb (fst c) k then Some (snd c) else find_column cs k.
Proof.
  destruct c as [kc vc]. simpl.
  induction cs as [|[kd vd] ds IH]; simpl; [reflexivity|].
  destruct (key_leb kc kd) eqn:Hle; simpl; [reflexivity|].
  destruct (key_eqb kd k) eqn:Hd.
  - apply key_eqb_eq in Hd. subst kd.
    destruct (key_eqb kc k) eqn:Hc; [|reflexivity].
    apply key_eqb_eq in Hc. subst kc.
    rewrite key_leb_refl in Hle. discriminate.
  - exact IH.
Qed.

(** Sorting the columns by label is stable for look-ups. *)
Lemma find_column_sort cs k :
  find_column (foldr insert_column [] cs) k = find_column cs k.
Proof.
  induction cs as [|[kc vc] cs IH]; simpl; [reflexivity|].
  rewrite find_column_insert. simpl. now rewrite IH.
Qed.

Lemma In_insert_column c cs x :
  In x (insert_column c cs) <-> x = c \/ In x cs.
Proof.
  induction cs as [|d ds IH]; simpl; [intuition congruence|].
  destruct (key_leb (fst c) (fst d)); simpl; [intuition congruence|].
  rewrite IH. intuition congruence.
Qed.

Lemma In_sort_columns cs x :
  In x (foldr insert_column [] cs) <-> In x cs.
Proof.
  induction cs as [|c cs IH]; simpl; [tauto|].
  rewrite In_insert_column, IH. intuition congruence.
Qed.

Lemma keys_set_target_columns cs a j :
  map fst (set_target_columns cs a j) = map fst cs.
Proof.
  revert j. induction cs as [|[k vs] cs IH]; intros j; simpl; [reflexivity|].
  destruct (is_target k); simpl; now rewrite IH.
Qed.


Lemma find_set_target_columns_other cs a j k :
  is_target k = false ->
  find_column (set_target_columns cs a j) k = find_column cs k.
Proof.
  intros Hk. revert j.
  induction cs as [|[k' vs'] cs IH]; intros j; simpl; [reflexivity|].
  destruct (is_target k') eqn:Ht; simpl.
  - destruct (key_eqb k' k) eqn:E; [|apply IH].
    apply key_eqb_eq in E. congruence.
  - destruct (key_eqb k' k); [reflexivity|apply IH].
Qed.

(** The [i]-th target column receives column [j0 + i] of the array. *)
Lemma find_set_target_columns_target cs a j0 i k :
  List.filter is_target (map fst cs) !! i = Some k ->
  NoDup (List.filter is_target (map fst cs)) ->
  find_column (set_target_columns cs a j0) k = Some (column_of a (j0 + i)).
Proof.
  revert j0 i.
  induction cs as [|[k' vs'] cs IH]; intros j0 i; simpl; [discriminate|].
  destruct (is_target k') eqn:Ht; simpl.
  - intros Hi Hnd. apply NoDup_cons in Hnd as [Hnotin Hnd].
    destruct i as [|i]; simpl in Hi.
    + injection Hi as ->. rewrite key_eqb_refl. now rewrite Nat.add_0_r.
    + destruct (key_eqb k' k) eqn:E.
      * apply key_eqb_eq in E. subst k'. exfalso. apply Hnotin.
        eapply list_elem_of_lookup_2. exact Hi.
      * rewrite (IH (S j0) i Hi Hnd). f_equal. f_equal. lia.
  - intros Hi Hnd.
    assert (Hk : is_target k = true).
    { apply list_elem_of_lookup_2 in Hi. apply list_elem_of_In in Hi.
      apply filter_In in Hi. tauto. }
    destruct (key_eqb k' k) eqn:E.
    + apply key_eqb_eq in E. congruence.
    + now apply IH.
Qed.

Lemma length_column_of a j : length (column_of a j) = rows a.
Proof. unfold column_of. now rewrite length_map, length_seq. Qed.

Lemma lookup_column_of a j i :
  (i < rows a)%nat -> column_of a j !! i = Some (cell a i j).
Proof.
  intros Hi. unfold column_of.
  rewrite list_lookup_fmap, lookup_seq_lt by exact Hi. reflexivity.
Qed.

Lemma find_column_imap (f : nat -> list value) (l : list column_key) c k :
  l !! c = Some k -> NoDup l ->
  find_column (imap (fun j k' => (k', f j)) l) k = Some (f c).
Proof.
  revert f c. induction l as [|k0 l IH]; intros f c; simpl; [discriminate|].
  intros Hc Hnd. apply NoDup_cons in Hnd as [Hnotin Hnd].
  destruct c as [|c]; simpl in Hc.
  - injection Hc as ->. now rewrite key_eqb_refl.
  - destruct (key_eqb k0 k) eqn:E.
    + apply key_eqb_eq in E. subst k0. exfalso. apply Hnotin.
      eapply list_elem_of_lookup_2. exact Hc.
    + apply (IH (fun j => f (S j)) c Hc Hnd).
Qed.

Lemma lookup_from_product xs ys j k x y :
  xs !! j = Some x -> ys !! k = Some y ->
  from_product xs ys !! (j * length ys + k)%nat = Some (x, y).
Proof.
  unfold from_product. revert j.
  induction xs as [|x0 xs IH]; intros j Hj Hk; [discriminate|].
  simpl. destruct j as [|j]; simpl in *.
  - injection Hj as ->. rewrite lookup_app_l.
    + now rewrite list_lookup_fmap, Hk.
    + rewrite length_map. now apply lookup_lt_Some in Hk.
  - rewrite lookup_app_r by (rewrite length_map; lia).
    rewrite length_map.
    replace (length ys + j * length ys + k - length ys)%nat
      with (j * length ys + k)%nat by lia.
    now apply IH.
Qed.

Lemma NoDup_from_product xs ys :
  NoDup xs -> NoDup ys -> NoDup (from_product xs ys).
Proof.
  intros Hxs Hys. unfold from_product.
  induction Hxs as [|x xs Hnotin Hxs IH]; simpl; [constructor|].
  apply NoDup_app. split; [|split].
  - apply NoDup_fmap_2; [|exact Hys]. intros a b [=]. assumption.
  - intros [x' y'] Hin Hin'.
    apply list_elem_of_fmap in Hin as (y0 & [= -> ->] & _).
    apply list_elem_of_In, in_flat_map in Hin' as (x1 & Hx1 & Hin').
    apply in_map_iff in Hin' as (y1 & [= -> ->] & _).
    apply Hnotin. now apply list_elem_of_In.
  - exact IH.
Qed.

Lemma unique_from_spec seen l :
  NoDup (unique_from seen l)
  /\ forall x, In x (unique_from seen l) <-> In x l /\ ~ In x seen.
Proof.
  revert seen. induction l as [|x l IH]; intros seen; simpl.
  - split; [constructor|]. tauto.
  - destruct (existsb (String.eqb x) seen) eqn:E.
    + destruct (IH seen) as [Hnd Hin]. split; [exact Hnd|].
      intros y. rewrite Hin.
      apply existsb_exists in E as (z & Hz & Hxz).
      apply String.eqb_eq in Hxz. subst z.
      split; [tauto|]. intros [[<- | Hy] Hns]; tauto.
    + destruct (IH (x :: seen)) as [Hnd Hin]. split.
      * apply NoDup_cons. split; [|exact Hnd].
        rewrite list_elem_of_In, Hin. simpl. tauto.
      * intros y. simpl. rewrite Hin. simpl.
        assert (Hx : ~ In x seen).
        { intros Hx.
          enough (existsb (String.eqb x) seen = true) by congruence.
          apply existsb_exists. exists x. split; [exact Hx|].
          apply String.eqb_refl. }
        destruct (String.string_dec x y) as [<-|Hne]; [tauto|]. tauto.
Qed.

Lemma NoDup_unique l : NoDup (unique l).
Proof. apply unique_from_spec. Qed.

Lemma In_unique l x : In x (unique l) <-> In x l.
Proof. unfold unique. rewrite (proj2 (unique_from_spec [] l)). simpl. tauto. Qed.

(** A quantile column is never a target column. *)
Lemma is_target_quantile segment s :
  is_target (segment, ("target_" ++ s)%string) = false.
Proof. reflexivity. Qed.

End FrameFacts.


(* ===================================================================== *)
(** * Properties of [DeepARModel.forecast] *)
(* ===================================================================== *)

Section DeepARProperties.
Import EnsembleMixin DeepAR DeepARSpec.
Context {TimeSeriesDataSet Other : Type}.
Variable format_4g : value -> string.

#[local] Abbreviation quantiles_frame := (DeepARSpec.quantiles_frame format_4g).
#[local] Abbreviation quantile_columns := (DeepARSpec.quantile_columns format_4g).

#[local] Abbreviation W := (World TimeSeriesDataSet Other).
#[local] Abbreviation Model := (DeepARModel TimeSeriesDataSet Other).
#[local] Abbreviation forecast := (@DeepAR.forecast TimeSeriesDataSet Other format_4g).

Lemma heap_called name (w : W) : heap (called name w) = heap w.
Proof. reflexivity. Qed.


(** A call of [forecast] with a fitted model on a prepared view: the point
    predictions are drawn, and the rest of the body runs in the store that
    the draw leaves. *)
Lemma forecast_prepared (self : Model) ts prediction_interval quantiles (w : W)
  ts_v pf ds net :
  heap w !! ts = Some ts_v ->
  _get_pf_transform ts_v = Ok pf ->
  pf_dataset_predict pf = Some ds ->
  model self = Some net ->
  forecast self ts prediction_interval quantiles w
  = (df1 <- lift (loc_set_target (df ts_v)
                    (tail_rows (len (df ts_v))
                       (T (point_predictions self net ds (other w))))) ;;
     write ts (set_df ts_v df1) ;;
     (if prediction_interval
      then add_quantile_columns format_4g net self (prediction_dataloader self ds)
             ts quantiles
      else ret tt) ;;
     inverse_transform_in_place ts ;;
     ret ts)
      (mkWorld (heap w) (state_after_point self net ds (other w))
         (logs (called "forecast" w))).
Proof.
  intros Hts Hpf Hds Hnet.
  unfold DeepAR.forecast, log_decorator, log, modify.
  unfold bind at 1. fold (called "forecast" w).
  unfold bind at 1. unfold read at 1. rewrite heap_called, Hts.
  unfold bind at 1. unfold lift at 1. rewrite Hpf, Hds, Hnet.
  unfold bind at 1. unfold draw at 1. reflexivity.
Qed.

(** The interval branch in a store that holds the view with frame [d]. *)
Lemma add_quantile_columns_run (self : Model) net ds ts quantiles (w0 : W)
  (ts_v : TSDataset TimeSeriesDataSet) d :
  heap w0 !! ts = Some (set_df ts_v d) ->
  add_quantile_columns format_4g net self (prediction_dataloader self ds) ts
    quantiles w0
  = match rbind (reshape_rows (transpose_102
                   (fst (predict_quantiles net (prediction_dataloader self ds)
                           (mode_kwargs self quantiles) (other w0)))))
            (fun a =>
               DataFrame_of_array a
                 (from_product (segments (set_df ts_v d))
                    (quantile_columns quantiles))
                 (index d)) with
    | Ok qdf =>
        (mkWorld
           (<[ts := set_df ts_v (sort_index_columns (concat_columns d qdf))]>
              (heap w0))
           (snd (predict_quantiles net (prediction_dataloader self ds)
                   (mode_kwargs self quantiles) (other w0)))
           (logs w0),
         Ok tt)
    | Raise e =>
        (mkWorld (heap w0)
           (snd (predict_quantiles net (prediction_dataloader self ds)
                   (mode_kwargs self quantiles) (other w0)))
           (logs w0),
         Raise e)
    end.
Proof.
  intros Hts.
  unfold add_quantile_columns, bind, draw, lift, read, write, modify, rbind.
  fold (mode_kwargs self quantiles). cbn [heap other logs].
  destruct (reshape_rows _) as [a|e]; [|reflexivity].
  rewrite Hts. cbn [df]. fold (quantile_columns quantiles).
  destruct (DataFrame_of_array _ _ _) as [qdf|e]; reflexivity.
Qed.

(** A point forecast that passes every check: the store afterwards. *)
Lemma forecast_point_run (self : Model) ts quantiles (w : W) ts_v pf ds net d1 :
  heap w !! ts = Some ts_v ->
  _get_pf_transform ts_v = Ok pf ->
  pf_dataset_predict pf = Some ds ->
  model self = Some net ->
  loc_set_target (df ts_v)
    (tail_rows (len (df ts_v)) (T (point_predictions self net ds (other w))))
  = Ok d1 ->
  forecast self ts false quantiles w
  = (mkWorld (<[ts := TSDataset_inverse_transform (set_df ts_v d1)]> (heap w))
       (state_after_point self net ds (other w)) (logs (called "forecast" w)),
     Ok ts).
Proof.
  intros Hts Hpf Hds Hnet Hset.
  rewrite (forecast_prepared self ts false quantiles w ts_v pf ds net
             Hts Hpf Hds Hnet).
  unfold bind, lift. rewrite Hset.
  unfold inverse_transform_in_place, write, read, modify, bind, ret. simpl.
  rewrite lookup_insert_eq. simpl. now rewrite insert_insert_eq.
Qed.

(** An interval forecast that passes every check: the store afterwards. *)
Lemma forecast_interval_run (self : Model) ts quantiles (w : W)
  ts_v pf ds net d1 qdf :
  heap w !! ts = Some ts_v ->
  _get_pf_transform ts_v = Ok pf ->
  pf_dataset_predict pf = Some ds ->
  model self = Some net ->
  loc_set_target (df ts_v)
    (tail_rows (len (df ts_v)) (T (point_predictions self net ds (other w))))
  = Ok d1 ->
  quantiles_frame self net ds (other w) ts_v d1 quantiles = Ok qdf ->
  forecast self ts true quantiles w
  = (mkWorld
       (<[ts := TSDataset_inverse_transform
                  (set_df ts_v (sort_index_columns (concat_columns d1 qdf)))]>
          (heap w))
       (state_after_interval self net ds quantiles (other w))
       (logs (called "forecast" w)),
     Ok ts).
Proof.
  intros Hts Hpf Hds Hnet Hset Hq.
  rewrite (forecast_prepared self ts true quantiles w ts_v pf ds net
             Hts Hpf Hds Hnet).
  unfold bind at 1. unfold lift at 1. rewrite Hset.
  unfold bind at 1. unfold write at 1, modify at 1. cbn [heap other logs].
  unfold bind at 1.
  erewrite add_quantile_columns_run
    by (cbn [heap]; apply lookup_insert_eq).
  cbn [other heap logs].
  unfold DeepARSpec.quantiles_frame, quantile_predictions in Hq.
  fold (quantile_columns quantiles) in Hq.
  rewrite Hq.
  unfold inverse_transform_in_place, write, read, modify, bind, ret.
  cbn [heap other logs]. rewrite lookup_insert_eq. cbn [heap other logs].
  now rewrite !insert_insert_eq.
Qed.

Lemma keys_enlarge_target_columns cs a j :
  map fst (enlarge_target_columns cs a j) = map fst cs.
Proof.
  revert j. induction cs as [|[k vs] cs IH]; intros j; simpl; [reflexivity|].
  destruct (is_target k); simpl; now rewrite IH.
Qed.


(** Successful or not, enlarging or not, [loc_set_target] keeps the column
    labels. *)
Lemma keys_loc_set_target d a d' :
  loc_set_target d a = Ok d' -> keys d' = keys d.
Proof.
  unfold loc_set_target.
  destruct (_ =? 0)%nat; [discriminate|].
  destruct (negb _); [discriminate|].
  destruct (rows a =? len d)%nat.
  - intros [= <-]. unfold keys. simpl. apply keys_set_target_columns.
  - destruct (len d =? 0)%nat; [|discriminate].
    intros [= <-]. unfold keys. simpl. apply keys_enlarge_target_columns.
Qed.

Lemma loc_set_target_ok (self : Model) net ds o d :
  point_shape_ok self net ds o d ->
  loc_set_target d (tail_rows (len d) (T (point_predictions self net ds o)))
  = Ok (mkDF (index d)
          (set_target_columns (columns d)
             (tail_rows (len d) (T (point_predictions self net ds o))) 0)).
Proof.
  intros (Hpos & Hle & Hrows & Hser). unfold loc_set_target, tail_rows. simpl.
  destruct (Nat.eqb_spec (len d) 0) as [E|_]; [lia|].
  destruct (Nat.eqb_spec (length (target_keys d)) 0) as [E|_]; [lia|].
  rewrite Hrows, Nat.eqb_refl. simpl.
  replace (cols _ - (cols _ - len d))%nat with (len d) by lia.
  now rewrite Nat.eqb_refl.
Qed.


(** An invariant of every inverse transform of a view is an invariant of
    [ts.inverse_transform()]. *)
Lemma inverse_transform_invariant (Q : DataFrame -> Prop)
  (ts_v : TSDataset TimeSeriesDataSet) (d : DataFrame) :
  (forall l t d0, transforms ts_v = Some l -> In t l ->
     Q d0 -> Q (inverse_transform t d0)) ->
  Q d -> Q (df (TSDataset_inverse_transform (set_df ts_v d))).
Proof.
  intros Hstep HQ. unfold TSDataset_inverse_transform, set_df. simpl.
  destruct (transforms ts_v) as [l|] eqn:Hl; simpl; [|exact HQ].
  assert (Hrev : forall t, In t (rev l) -> forall d0, Q d0 -> Q (inverse_transform t d0)).
  { intros t Ht d0. apply (Hstep l t d0 eq_refl). now apply in_rev. }
  clear Hstep Hl. revert d HQ.
  induction (rev l) as [|t l' IH]; intros d HQ; simpl; [exact HQ|].
  apply IH.
  - intros t' Ht'. apply Hrev. now right.
  - apply Hrev; [now left|exact HQ].
Qed.



Lemma length_from_product xs ys :
  length (from_product xs ys) = (length xs * length ys)%nat.
Proof.
  unfold from_product.
  rewrite (flat_map_constant_length (c := length ys))
    by (intros; now rewrite length_map).
  reflexivity.
Qed.

Lemma quantiles_frame_ok (self : Model) net ds o ts_v d quantiles :
  (0 < len d)%nat ->
  keys d = keys (df ts_v) ->
  len d = len (df ts_v) ->
  interval_shape_ok self net ds o ts_v quantiles ->
  quantiles_frame self net ds o ts_v d quantiles
  = Ok (mkDF (index d)
          (imap (fun j k => (k, column_of (quantile_array self net ds o quantiles) j))
             (from_product (segments ts_v) (quantile_columns quantiles)))).
Proof.
  intros Hpos Hkeys Hlen (Hd1 & Hprod).
  unfold DeepARSpec.quantiles_frame, reshape_rows, rbind, DataFrame_of_array. simpl.
  destruct (Nat.eqb_spec (dim1 (quantile_predictions self net ds quantiles o)) 0)
    as [E|_]; [lia|]. simpl.
  fold (quantile_columns quantiles).
  replace (segments (set_df ts_v d)) with (segments ts_v)
    by (unfold segments; simpl; now rewrite Hkeys).
  rewrite length_from_product. unfold DeepARSpec.quantile_columns at 1.
  rewrite length_map.
  rewrite (proj2 (Nat.eqb_eq _ _)) by (unfold len in *; lia).
  rewrite (proj2 (Nat.eqb_eq _ _)) by exact Hprod.
  reflexivity.
Qed.


Lemma keys_imap_columns (f : nat -> list value) (l : list column_key) :
  map fst (imap (fun j k => (k, f j)) l) = l.
Proof.
  revert f. induction l as [|k l IH]; intros f; simpl; [reflexivity|].
  f_equal. apply (IH (fun j => f (S j))).
Qed.

Lemma In_from_product xs ys x y :
  In (x, y) (from_product xs ys) <-> In x xs /\ In y ys.
Proof.
  unfold from_product. rewrite in_flat_map. split.
  - intros (x' & Hx & Hin). apply in_map_iff in Hin as (y' & [= -> ->] & Hy).
    now split.
  - intros [Hx Hy]. exists x. split; [exact Hx|]. apply in_map_iff. eauto.
Qed.

Lemma In_keys_sort_concat d q k :
  In k (keys (sort_index_columns (concat_columns d q)))
  <-> In k (keys d) \/ In k (keys q).
Proof.
  unfold keys. simpl. rewrite <- in_app_iff, <- map_app, !in_map_iff.
  split; intros (c & Hc & Hin); exists c; (split; [exact Hc|]);
    now apply In_sort_columns.
Qed.

Lemma lookup_quantile_array (self : Model) net ds o quantiles j k i :
  let qp := quantile_predictions self net ds quantiles o in
  (k < dim2 qp)%nat -> (i < dim1 qp)%nat ->
  column_of (quantile_array self net ds o quantiles) (j * dim2 qp + k) !! i
  = Some (cell3 qp j i k).
Proof.
  intros qp Hk Hi.
  rewrite lookup_column_of by exact Hi. unfold quantile_array. simpl.
  fold qp. f_equal. f_equal.
  - rewrite Nat.div_add_l by lia. rewrite Nat.div_small by exact Hk. lia.
  - rewrite Nat.add_comm, Nat.Div0.mod_add. now apply Nat.mod_small.
Qed.

(** C9: an interval forecast on a view that passes the shape checks returns
    the view with a column [(segment, "target_" ++ format(q))] for every
    segment of the view and every requested quantile [q], in addition to
    every column label it had before.  The column is as long as the view
    and holds, row by row, what the network predicts for that series, step
    and quantile.  The inverse transforms of the view are taken to drop no
    label and to leave the columns other than the target ones as they
    are. *)
Theorem forecast_interval_adds_quantile_columns (self : Model) (ts : loc)
  (quantiles : list value) (w : W) (ts_v : TSDataset TimeSeriesDataSet)
  pf ds net :
  let qp := quantile_predictions self net ds quantiles (other w) in
  heap w !! ts = Some ts_v ->
  _get_pf_transform ts_v = Ok pf ->
  pf_dataset_predict pf = Some ds ->
  model self = Some net ->
  point_shape_ok self net ds (other w) (df ts_v) ->
  interval_shape_ok self net ds (other w) ts_v quantiles ->
  dim2 qp = length quantiles ->
  (forall l t, transforms ts_v = Some l -> In t l ->
     keeps_keys (inverse_transform t)) ->
  (forall l t, transforms ts_v = Some l -> In t l ->
     keeps_other_columns (inverse_transform t)) ->
  exists w' ts_v',
    forecast self ts true quantiles w = (w', Ok ts)
    /\ heap w' !! ts = Some ts_v'
    /\ (forall segment q,
          In segment (segments ts_v) -> In q quantiles ->
          In (segment, ("target_" ++ format_4g q)%string) (keys (df ts_v')))
    /\ (forall k, In k (keys (df ts_v)) -> In k (keys (df ts_v')))
    /\ (forall j segment k q,
          segments ts_v !! j = Some segment ->
          quantiles !! k = Some q ->
          exists col,
            In ((segment, ("target_" ++ format_4g q)%string), col)
               (columns (df ts_v'))
            /\ length col = len (df ts_v)
            /\ forall i, (i < len (df ts_v))%nat ->
                 col !! i = Some (cell3 qp j i k)).
Proof.
  intros qp Hts Hpf Hds Hnet Hshape Hint Hdim Hinv Hinv'.
  pose proof (loc_set_target_ok self net ds (other w) (df ts_v) Hshape) as Hset.
  set (d1 := mkDF (index (df ts_v))
               (set_target_columns (columns (df ts_v))
                  (tail_rows (len (df ts_v))
                     (T (point_predictions self net ds (other w)))) 0)) in *.
  assert (Hk1 : keys d1 = keys (df ts_v))
    by (unfold keys; simpl; apply keys_set_target_columns).
  assert (Hq := quantiles_frame_ok self net ds (other w) ts_v d1 quantiles
                  (proj1 Hshape) Hk1 eq_refl Hint).
  set (qa := quantile_array self net ds (other w) quantiles) in *.
  eexists. eexists. split; [|split; [|split; [|split]]].
  - apply (forecast_interval_run self ts quantiles w ts_v pf ds net d1 _
             Hts Hpf Hds Hnet Hset Hq).
  - simpl. apply lookup_insert_eq.
  - intros segment q Hseg Hin.
    apply (inverse_transform_invariant
             (fun d => In (segment, ("target_" ++ format_4g q)%string) (keys d))).
    + intros l t d0 Hl Ht. now apply (Hinv l t Hl Ht).
    + apply In_keys_sort_concat. right. unfold keys. simpl.
      rewrite keys_imap_columns. apply In_from_product. split; [exact Hseg|].
      unfold DeepARSpec.quantile_columns. apply in_map_iff. eauto.
  - intros k Hin.
    apply (inverse_transform_invariant (fun d => In k (keys d))).
    + intros l t d0 Hl Ht. now apply (Hinv l t Hl Ht).
    + apply In_keys_sort_concat. left. now rewrite Hk1.
  - intros j segment k q Hj Hk.
    destruct Hint as (Hd1 & Hprod). fold qp in Hd1, Hprod.
    exists (column_of qa (j * length quantiles + k)).
    split; [|split].
    + apply (inverse_transform_invariant
               (fun d => In ((segment, ("target_" ++ format_4g q)%string),
                             column_of qa (j * length quantiles + k))
                            (columns d))).
      * intros l t d0 Hl Ht Hd0.
        apply (Hinv' l t Hl Ht); [apply is_target_quantile|exact Hd0].
      * assert (Hlk : from_product (segments ts_v) (quantile_columns quantiles)
                        !! (j * length quantiles + k)
                      = Some (segment, ("target_" ++ format_4g q)%string)).
        { replace (length quantiles)
            with (length (quantile_columns quantiles))
            by (unfold DeepARSpec.quantile_columns; apply length_map).
          apply lookup_from_product; [exact Hj|].
          unfold DeepARSpec.quantile_columns. now rewrite list_lookup_fmap, Hk. }
        simpl. apply In_sort_columns. apply in_or_app. right.
        apply list_elem_of_In.
        apply (list_elem_of_lookup_2 _ (j * length quantiles + k)).
        rewrite list_lookup_imap.
        match goal with
        | |- _ <$> ?x = _ =>
            replace x with (Some (segment, ("target_" ++ format_4g q)%string))
              by (symmetry; exact Hlk)
        end.
        reflexivity.
    + rewrite length_column_of. unfold qa, quantile_array. simpl. exact Hd1.
    + intros i Hi. rewrite <- Hdim. unfold qa.
      apply lookup_quantile_array; fold qp.
      * rewrite Hdim. now apply lookup_lt_Some in Hk.
      * lia.
Qed.

Lemma target_key_at (d : DataFrame) (segs : list string) j segment :
  map fst (target_keys d) = segs ->
  segs !! j = Some segment ->
  List.filter is_target (map fst (columns d)) !! j = Some (segment, "target").
Proof.
  intros <- Hj. unfold target_keys, keys in Hj.
  rewrite list_lookup_fmap in Hj.
  apply fmap_Some in Hj as ([s f] & E & ->). simpl.
  pose proof E as Ht.
  apply list_elem_of_lookup_2, list_elem_of_In, filter_In in Ht as [_ Ht].
  unfold is_target in Ht. simpl in Ht. apply String.eqb_eq in Ht. subst f.
  exact E.
Qed.

(** What an interval forecast leaves in the view: in the column of each
    segment, the point predictions of that series; in each quantile column,
    the predictions of the network for that series and that quantile. *)
Lemma forecast_interval_run_values (self : Model) (ts : loc)
  (quantiles : list value) (w : W) (ts_v : TSDataset TimeSeriesDataSet)
  pf ds net :
  let p := point_predictions self net ds (other w) in
  let qp := quantile_predictions self net ds quantiles (other w) in
  heap w !! ts = Some ts_v ->
  _get_pf_transform ts_v = Ok pf ->
  pf_dataset_predict pf = Some ds ->
  model self = Some net ->
  point_shape_ok self net ds (other w) (df ts_v) ->
  interval_shape_ok self net ds (other w) ts_v quantiles ->
  (forall l t, transforms ts_v = Some l -> In t l ->
     keeps_lookups (inverse_transform t)) ->
  map fst (target_keys (df ts_v)) = segments ts_v ->
  dim2 qp = length quantiles ->
  NoDup (quantile_columns quantiles) ->
  (forall segment n, In n (quantile_columns quantiles) ->
     ~ In (segment, n) (keys (df ts_v))) ->
  exists w' ts_v',
    forecast self ts true quantiles w = (w', Ok ts)
    /\ heap w' !! ts = Some ts_v'
    /\ forall j segment i,
         segments ts_v !! j = Some segment ->
         (i < len (df ts_v))%nat ->
         (exists target,
            get_column (df ts_v') (segment, "target") = Ok target
            /\ target !! i = Some (cell p j (cols p - len (df ts_v) + i)))
         /\ (forall k q, quantiles !! k = Some q ->
               exists col,
                 get_column (df ts_v') (segment, ("target_" ++ format_4g q)%string)
                 = Ok col
                 /\ col !! i = Some (cell3 qp j i k)).
Proof.
  intros p qp Hts Hpf Hds Hnet Hshape Hint Hinv Halign Hdim Hnames Hfresh.
  pose proof (loc_set_target_ok self net ds (other w) (df ts_v) Hshape) as Hset.
  fold p in Hset.
  set (a := tail_rows (len (df ts_v)) (T p)) in *.
  set (d1 := mkDF (index (df ts_v))
               (set_target_columns (columns (df ts_v)) a 0)) in *.
  assert (Hk1 : keys d1 = keys (df ts_v))
    by (unfold keys; simpl; apply keys_set_target_columns).
  assert (Hq := quantiles_frame_ok self net ds (other w) ts_v d1 quantiles
                  (proj1 Hshape) Hk1 eq_refl Hint).
  set (qcols := imap (fun j k => (k, column_of (quantile_array self net ds (other w) quantiles) j))
                  (from_product (segments ts_v) (quantile_columns quantiles))) in *.
  destruct Hshape as (Hpos & Hle & Hrows & Hser). destruct Hint as (Hd1 & Hprod).
  fold p in Hle, Hrows, Hser. fold qp in Hd1, Hprod.
  assert (Hfind : forall k,
            find_column
              (columns (df (TSDataset_inverse_transform
                 (set_df ts_v (sort_index_columns
                    (concat_columns d1 (mkDF (index d1) qcols)))))))
              k
            = match find_column (columns d1) k with
              | Some vs => Some vs
              | None => find_column qcols k
              end).
  { intros k.
    apply (inverse_transform_invariant (fun d => find_column (columns d) k = _)).
    - intros l t d0 Hl Ht Hd0. now rewrite (Hinv l t Hl Ht).
    - simpl. now rewrite find_column_sort, find_column_app. }
  assert (Ha_rows : rows a = len (df ts_v)).
  { unfold a, tail_rows. simpl.
    destruct (Nat.eqb_spec (len (df ts_v)) 0); lia. }
  eexists. eexists. split; [|split].
  - apply (forecast_interval_run self ts quantiles w ts_v pf ds net d1 _
             Hts Hpf Hds Hnet Hset Hq).
  - simpl. apply lookup_insert_eq.
  - intros j segment i Hj Hi. split.
    + exists (column_of a j). unfold get_column. rewrite Hfind. simpl.
      rewrite (find_set_target_columns_target (columns (df ts_v)) a 0 j
                 (segment, "target")).
      * split; [reflexivity|].
        rewrite lookup_column_of by lia. unfold a, tail_rows. simpl.
        destruct (Nat.eqb_spec (len (df ts_v)) 0); [lia|]. reflexivity.
      * now apply (target_key_at (df ts_v) (segments ts_v)).
      * apply (NoDup_fmap_1 fst). fold (keys (df ts_v)).
        fold (target_keys (df ts_v)).
        change (NoDup (map fst (target_keys (df ts_v)))).
        rewrite Halign. apply NoDup_unique.
    + intros k q Hk.
      exists (column_of (quantile_array self net ds (other w) quantiles)
                (j * length quantiles + k)).
      unfold get_column. rewrite Hfind. simpl.
      rewrite find_set_target_columns_other by apply is_target_quantile.
      rewrite find_column_None.
      * unfold qcols.
        rewrite (find_column_imap _ _ (j * length (quantile_columns quantiles) + k)).
        -- unfold DeepARSpec.quantile_columns at 1. rewrite length_map.
           split; [reflexivity|].
           rewrite <- Hdim. apply lookup_quantile_array; fold qp.
           ++ rewrite Hdim. now apply lookup_lt_Some in Hk.
           ++ lia.
        -- apply lookup_from_product; [exact Hj|].
           unfold DeepARSpec.quantile_columns. now rewrite list_lookup_fmap, Hk.
        -- apply NoDup_from_product; [apply NoDup_unique|exact Hnames].
      * apply Hfresh. unfold DeepARSpec.quantile_columns. apply in_map_iff.
        exists q. split; [reflexivity|].
        apply list_elem_of_In. eapply list_elem_of_lookup_2. exact Hk.
Qed.

(** C4, as amended: after an interval forecast that passes the shape checks,
    the target column of a segment holds the point predictions of the
    network and the quantile columns hold its quantile predictions, so at a
    forecasted point [lower <= target <= upper] holds whenever the outputs of
    the network are so ordered at that point. *)
Theorem forecast_interval_bracket (self : Model) (ts : loc)
  (quantiles : list value) (w : W) (ts_v : TSDataset TimeSeriesDataSet)
  pf ds net :
  let p := point_predictions self net ds (other w) in
  let qp := quantile_predictions self net ds quantiles (other w) in
  heap w !! ts = Some ts_v ->
  _get_pf_transform ts_v = Ok pf ->
  pf_dataset_predict pf = Some ds ->
  model self = Some net ->
  point_shape_ok self net ds (other w) (df ts_v) ->
  interval_shape_ok self net ds (other w) ts_v quantiles ->
  (forall l t, transforms ts_v = Some l -> In t l ->
     keeps_lookups (inverse_transform t)) ->
  map fst (target_keys (df ts_v)) = segments ts_v ->
  dim2 qp = length quantiles ->
  NoDup (quantile_columns quantiles) ->
  (forall segment n, In n (quantile_columns quantiles) ->
     ~ In (segment, n) (keys (df ts_v))) ->
  exists w' ts_v',
    forecast self ts true quantiles w = (w', Ok ts)
    /\ heap w' !! ts = Some ts_v'
    /\ forall j segment i k_lo k_hi q_lo q_hi,
         segments ts_v !! j = Some segment ->
         (i < len (df ts_v))%nat ->
         quantiles !! k_lo = Some q_lo ->
         quantiles !! k_hi = Some q_hi ->
         exists lower target upper l t u,
           get_column (df ts_v') (segment, ("target_" ++ format_4g q_lo)%string)
           = Ok lower
           /\ get_column (df ts_v') (segment, "target") = Ok target
           /\ get_column (df ts_v') (segment, ("target_" ++ format_4g q_hi)%string)
              = Ok upper
           /\ lower !! i = Some l /\ target !! i = Some t /\ upper !! i = Some u
           /\ l = cell3 qp j i k_lo
           /\ t = cell p j (cols p - len (df ts_v) + i)
           /\ u = cell3 qp j i k_hi
           /\ (le (cell3 qp j i k_lo) (cell p j (cols p - len (df ts_v) + i)) = true ->
               le (cell p j (cols p - len (df ts_v) + i)) (cell3 qp j i k_hi) = true ->
               le l t = true /\ le t u = true).
Proof.
  intros p qp Hts Hpf Hds Hnet Hshape Hint Hinv Halign Hdim Hnames Hfresh.
  destruct (forecast_interval_run_values self ts quantiles w ts_v pf ds net
              Hts Hpf Hds Hnet Hshape Hint Hinv Halign Hdim Hnames Hfresh)
    as (w' & ts_v' & Hrun & Hheap & Hvals).
  exists w', ts_v'. split; [exact Hrun|]. split; [exact Hheap|].
  intros j segment i k_lo k_hi q_lo q_hi Hj Hi Hlo Hhi.
  destruct (Hvals j segment i Hj Hi) as ((target & Htarget & Ht) & Hq).
  destruct (Hq k_lo q_lo Hlo) as (lower & Hlower & Hl).
  destruct (Hq k_hi q_hi Hhi) as (upper & Hupper & Hu).
  exists lower, target, upper. do 3 eexists.
  repeat (split; [eassumption || reflexivity|]).
  tauto.
Qed.

Lemma foldl_commute {A B} (f : A -> B -> A) (g : A -> A) (l : list B) (a : A) :
  (forall b a0, In b l -> f (g a0) b = g (f a0 b)) ->
  foldl f (g a) l = g (foldl f a l).
Proof.
  revert a. induction l as [|b l IH]; intros a Hc; simpl; [reflexivity|].
  rewrite Hc by now left. apply IH. intros b' a0 Hb'. apply Hc. now right.
Qed.

Lemma column_of_tail_rows (a : ndarray2) (n j : nat) :
  (0 < n <= rows a)%nat ->
  column_of (tail_rows n a) j = drop (rows a - n) (column_of a j).
Proof.
  intros Hn. unfold column_of, tail_rows. simpl.
  destruct (Nat.eqb_spec n 0) as [E|_]; [lia|].
  rewrite <- fmap_drop, drop_seq. simpl.
  replace (rows a - (rows a - n))%nat with n by lia.
  replace (rows a - (rows a - n))%nat with n by lia.
  replace (seq (rows a - n) n) with (Nat.add (rows a - n) <$> seq 0 n)
    by (rewrite fmap_add_seq; f_equal; lia).
  now rewrite <- list_fmap_compose.
Qed.

Lemma set_target_columns_drop cs (a b : ndarray2) k j :
  (forall j', column_of b j' = drop k (column_of a j')) ->
  set_target_columns (map (fun c => (fst c, drop k (snd c))) cs) b j
  = map (fun c => (fst c, drop k (snd c))) (set_target_columns cs a j).
Proof.
  intros Hcol. revert j.
  induction cs as [|[key vs] cs IH]; intros j; simpl; [reflexivity|].
  destruct (is_target key); simpl; rewrite IH; [|reflexivity].
  now rewrite Hcol.
Qed.

(** Two arrays of predictions with the same steps from [n] on have the same
    columns from row [n] on once transposed. *)
Lemma drop_column_of_T (p1 p2 : ndarray2) (n j : nat) :
  cols p2 = cols p1 ->
  (forall t, (n <= t < cols p1)%nat -> cell p2 j t = cell p1 j t) ->
  drop n (column_of (T p2) j) = drop n (column_of (T p1) j).
Proof.
  intros Hcols Hcell. unfold column_of, T. simpl. rewrite Hcols.
  rewrite <- !fmap_drop, drop_seq. simpl.
  apply map_ext_in. intros t Ht. apply in_seq in Ht. apply Hcell. lia.
Qed.

(** C1, as amended: in point mode, the forecast of the view restricted to
    the rows from position [k] on (a suffix of the range) is the slice from
    [k] on of the forecast of the whole range when the network returns to
    both calls the same predictions for the steps of the suffix, provided
    the inverse transforms of the view act row by row. *)
Theorem forecast_suffix_is_tail_slice (self : Model) (ts_full ts_suffix : loc)
  (k : nat) (quantiles : list value) (w1 w2 : W)
  (full_v : TSDataset TimeSeriesDataSet) pf ds net :
  let p1 := point_predictions self net ds (other w1) in
  let p2 := point_predictions self net ds (other w2) in
  heap w1 !! ts_full = Some full_v ->
  heap w2 !! ts_suffix = Some (set_df full_v (iloc_from k (df full_v))) ->
  _get_pf_transform full_v = Ok pf ->
  pf_dataset_predict pf = Some ds ->
  model self = Some net ->
  point_shape_ok self net ds (other w1) (df full_v) ->
  (k < len (df full_v))%nat ->
  rows p2 = rows p1 ->
  cols p2 = cols p1 ->
  (forall j t, (cols p1 - (len (df full_v) - k) <= t < cols p1)%nat ->
     cell p2 j t = cell p1 j t) ->
  (forall l t d, transforms full_v = Some l -> In t l ->
     inverse_transform t (iloc_from k d) = iloc_from k (inverse_transform t d)) ->
  exists w1' w2' full_v' suffix_v',
    forecast self ts_full false quantiles w1 = (w1', Ok ts_full)
    /\ forecast self ts_suffix false quantiles w2 = (w2', Ok ts_suffix)
    /\ heap w1' !! ts_full = Some full_v'
    /\ heap w2' !! ts_suffix = Some suffix_v'
    /\ df suffix_v' = iloc_from k (df full_v').
Proof.
  intros p1 p2 Hfull Hsuf Hpf Hds Hnet Hshape Hk Hrows2 Hcols2 Hcells Hinv.
  set (d := df full_v) in *.
  assert (Hlen : len (iloc_from k d) = (len d - k)%nat)
    by (unfold len, iloc_from; simpl; apply length_drop).
  assert (Hkeys : keys (iloc_from k d) = keys d).
  { unfold keys, iloc_from. simpl. rewrite map_map. reflexivity. }
  assert (Hshape' : point_shape_ok self net ds (other w2) (iloc_from k d)).
  { destruct Hshape as (Hpos & Hle & Hrows & Hser). fold p1 in Hle, Hrows, Hser.
    unfold point_shape_ok. fold p2. rewrite Hlen, Hrows2, Hcols2.
    unfold target_keys. rewrite Hkeys.
    repeat split; [lia|lia|exact Hrows|exact Hser]. }
  pose proof (loc_set_target_ok self net ds (other w1) d Hshape) as Hset1.
  pose proof (loc_set_target_ok self net ds (other w2) (iloc_from k d) Hshape')
    as Hset2.
  assert (Hpf' : _get_pf_transform (set_df full_v (iloc_from k d)) = Ok pf)
    by exact Hpf.
  eexists. eexists. eexists. eexists. split; [|split; [|split; [|split]]].
  - apply (forecast_point_run self ts_full quantiles w1 full_v pf ds net _
             Hfull Hpf Hds Hnet Hset1).
  - apply (forecast_point_run self ts_suffix quantiles w2 _ pf ds net _
             Hsuf Hpf' Hds Hnet Hset2).
  - simpl. apply lookup_insert_eq.
  - simpl. apply lookup_insert_eq.
  - destruct Hshape as (Hpos & Hle & Hrows & Hser). fold p1 in Hle, Hrows, Hser.
    fold p1 p2. unfold TSDataset_inverse_transform, set_df.
    cbn [transforms df freq].
    assert (Hd1 :
      mkDF (drop k (index d))
        (set_target_columns
           (map (fun c => (fst c, drop k (snd c))) (columns d))
           (tail_rows (len (iloc_from k d)) (T p2)) 0)
      = iloc_from k
          (mkDF (index d)
             (set_target_columns (columns d) (tail_rows (len d) (T p1)) 0))).
    { rewrite Hlen. unfold iloc_from. simpl. f_equal.
      apply set_target_columns_drop. intros j'.
      rewrite !column_of_tail_rows by (simpl; lia).
      rewrite drop_drop. simpl. rewrite Hcols2.
      replace (cols p1 - len d + k)%nat with (cols p1 - (len d - k))%nat by lia.
      apply drop_column_of_T; [exact Hcols2|]. intros t Ht. now apply Hcells. }
    rewrite Hd1.
    destruct (transforms full_v) as [l|] eqn:Hl; cbn [df]; [|reflexivity].
    apply foldl_commute. intros t d0 Ht.
    apply (Hinv l t d0 eq_refl). now apply in_rev.
Qed.

(** A successful [fit] is what makes a model fitted: it installs a network
    and changes neither the other attributes nor any dataset. *)
Lemma fit_installs_network
  (train : Model -> DataLoader TimeSeriesDataSet -> Other ->
           LightningModule TimeSeriesDataSet Other * Other)
  (self self' : Model) (ts : loc) (w w' : W) :
  DeepAR.fit train self ts w = (w', Ok self') ->
  (exists net, model self' = Some net)
  /\ batch_size self' = batch_size self
  /\ quantiles_kwargs self' = quantiles_kwargs self
  /\ heap w' = heap w.
Proof.
  unfold DeepAR.fit, log_decorator, log, modify, bind, read, lift, ret, draw.
  fold (called "fit" w). rewrite heap_called.
  destruct (heap w !! ts) as [ts_v|]; [|discriminate].
  destruct (_get_pf_transform ts_v) as [pf|e]; [|discriminate].
  intros [= <- <-]. simpl. eauto.
Qed.

End DeepARProperties.



Section DeepARWitnesses.
Import DeepAR DeepARSpec DeepARExamples.

Example sample_full_forecast :
  snd (sample_forecast (sample_net 25%float 26%float) sample_view false) = Ok 0%nat
  /\ frame_after (sample_forecast (sample_net 25%float 26%float) sample_view false)
     = Some (mkDF [100%Z; 101%Z]
               [(("a", "feature"), [5%float; 6%float]);
                (("a", "target"), [25%float; 26%float])]).
Proof. split; reflexivity. Qed.

Example sample_interval_forecast :
  snd (sample_forecast (sample_net 25%float 26%float) sample_view true) = Ok 0%nat
  /\ frame_after (sample_forecast (sample_net 25%float 26%float) sample_view true)
     = Some (mkDF [100%Z; 101%Z]
               [(("a", "feature"), [5%float; 6%float]);
                (("a", "target"), [25%float; 26%float]);
                (("a", "target_0.025"), [20%float; 20%float]);
                (("a", "target_0.975"), [30%float; 30%float])]).
Proof. split; reflexivity. Qed.

Lemma sample_point_shape_ok net_p0 net_p1 :
  point_shape_ok (sample_model (sample_net net_p0 net_p1))
    (sample_net net_p0 net_p1) 1%nat tt sample_frame.
Proof. unfold point_shape_ok. simpl. unfold len. simpl. lia. Qed.

Lemma sample_interval_shape_ok net_p0 net_p1 :
  interval_shape_ok (sample_model (sample_net net_p0 net_p1))
    (sample_net net_p0 net_p1) 1%nat tt sample_view [0.025%float; 0.975%float].
Proof. unfold interval_shape_ok. simpl. split; reflexivity. Qed.

(** C1, as stated, fails in both halves.  A prefix: with point predictions
    25 and 26 for the two steps, the forecast of the whole range starts
    with 25, and the forecast of the first row alone holds 26.  A suffix:
    with a network that samples, the forecast of the whole range ends with
    the 26 of the first draw, and the forecast of the last row alone, made
    after it, holds the 36 of the second draw. *)
Lemma forecast_slices_counterexample :
  (snd (sample_forecast (sample_net 25%float 26%float) sample_view false) = Ok 0%nat
   /\ snd (sample_forecast (sample_net 25%float 26%float) sample_prefix_view false)
      = Ok 0%nat
   /\ (iloc_upto 1 <$>
         frame_after (sample_forecast (sample_net 25%float 26%float) sample_view false))
      = Some (mkDF [100%Z]
                [(("a", "feature"), [5%float]); (("a", "target"), [25%float])])
   /\ frame_after
        (sample_forecast (sample_net 25%float 26%float) sample_prefix_view false)
      = Some (mkDF [100%Z]
                [(("a", "feature"), [5%float]); (("a", "target"), [26%float])])
   /\ frame_after
        (sample_forecast (sample_net 25%float 26%float) sample_prefix_view false)
      <> (iloc_upto 1 <$>
            frame_after (sample_forecast (sample_net 25%float 26%float) sample_view false)))
  /\ (let full := forecast sample_format (sample_model sampling_net) 0%nat false
                    [0.025%float; 0.975%float] two_views in
      let suffix := forecast sample_format (sample_model sampling_net) 1%nat false
                      [0.025%float; 0.975%float] (fst full) in
      snd full = Ok 0%nat
      /\ snd suffix = Ok 1%nat
      /\ (df <$> heap (fst suffix) !! 0%nat)
         = Some (mkDF [100%Z; 101%Z]
                   [(("a", "feature"), [5%float; 6%float]);
                    (("a", "target"), [25%float; 26%float])])
      /\ (df <$> heap (fst suffix) !! 1%nat)
         = Some (mkDF [101%Z]
                   [(("a", "feature"), [6%float]); (("a", "target"), [36%float])])
      /\ (df <$> heap (fst suffix) !! 1%nat)
         <> (iloc_from 1 <$> (df <$> heap (fst suffix) !! 0%nat))).
Proof.
  split.
  - assert (E1 : (iloc_upto 1 <$>
          frame_after (sample_forecast (sample_net 25%float 26%float) sample_view false))
       = Some (mkDF [100%Z]
                 [(("a", "feature"), [5%float]); (("a", "target"), [25%float])]))
      by reflexivity.
    assert (E2 : frame_after
         (sample_forecast (sample_net 25%float 26%float) sample_prefix_view false)
       = Some (mkDF [100%Z]
                 [(("a", "feature"), [5%float]); (("a", "target"), [26%float])]))
      by reflexivity.
    repeat (split; [reflexivity|]).
    rewrite E1, E2. intros H.
    apply (f_equal (fun o => match o with
                             | Some (mkDF _ [_; (_, [x])]) => PrimFloat.eqb x 26%float
                             | _ => false
                             end)) in H.
    vm_compute in H. discriminate.
  - intros full suffix.
    assert (E0 : (df <$> heap (fst suffix) !! 0%nat)
         = Some (mkDF [100%Z; 101%Z]
                   [(("a", "feature"), [5%float; 6%float]);
                    (("a", "target"), [25%float; 26%float])]))
      by reflexivity.
    assert (E1 : (df <$> heap (fst suffix) !! 1%nat)
         = Some (mkDF [101%Z]
                   [(("a", "feature"), [6%float]); (("a", "target"), [36%float])]))
      by reflexivity.
    split; [reflexivity|]. split; [reflexivity|].
    split; [exact E0|]. split; [exact E1|].
    rewrite E1, E0. intros H.
    apply (f_equal (fun o => match o with
                             | Some (mkDF _ [_; (_, [x])]) => PrimFloat.eqb x 36%float
                             | _ => false
                             end)) in H.
    vm_compute in H. discriminate.
Qed.

Lemma forecast_suffix_is_tail_slice_witness :
  exists w1' w2' full_v' suffix_v',
    forecast sample_format (sample_model (sample_net 25%float 26%float)) 0%nat
      false [0.025%float; 0.975%float] (sample_world sample_view)
    = (w1', Ok 0%nat)
    /\ forecast sample_format (sample_model (sample_net 25%float 26%float)) 0%nat
         false [0.025%float; 0.975%float] (sample_world sample_suffix_view)
       = (w2', Ok 0%nat)
    /\ heap w1' !! 0%nat = Some full_v'
    /\ heap w2' !! 0%nat = Some suffix_v'
    /\ df suffix_v' = iloc_from 1 (df full_v').
Proof.
  apply (forecast_suffix_is_tail_slice sample_format
           (sample_model (sample_net 25%float 26%float)) 0%nat 0%nat 1
           [0.025%float; 0.975%float]
           (sample_world sample_view) (sample_world sample_suffix_view)
           sample_view (mkPFT 0%nat (Some 1%nat)) 1%nat
           (sample_net 25%float 26%float)).
  - reflexivity.
  - reflexivity.
  - reflexivity.
  - reflexivity.
  - reflexivity.
  - apply sample_point_shape_ok.
  - unfold len. simpl. lia.
  - reflexivity.
  - reflexivity.
  - intros j t _. reflexivity.
  - intros l t d [= <-] [<-|[]]. reflexivity.
Defined.

Lemma sample_keeps_lookups :
  forall l t, transforms sample_view = Some l -> In t l ->
    keeps_lookups (inverse_transform t).
Proof. intros l t [= <-] [<-|[]] d k. reflexivity. Qed.

Lemma sample_keeps_other_columns :
  forall l t, transforms sample_view = Some l -> In t l ->
    keeps_other_columns (inverse_transform t).
Proof. intros l t [= <-] [<-|[]] d k vs _ Hin. exact Hin. Qed.

Lemma sample_keeps_keys :
  forall l t, transforms sample_view = Some l -> In t l ->
    keeps_keys (inverse_transform t).
Proof. intros l t [= <-] [<-|[]] d k Hin. exact Hin. Qed.

Lemma sample_quantile_columns :
  quantile_columns sample_format [0.025%float; 0.975%float]
  = ["target_0.025"; "target_0.975"].
Proof. reflexivity. Qed.

(** C4, as stated, fails when the network does not order its outputs: with
    point predictions 10 and 11 and quantile predictions 20 and 30 the
    interval forecast succeeds, and at the first point the lower-quantile
    column holds 20 above the target 10. *)
Lemma forecast_interval_bracket_counterexample :
  exists d lower target,
    snd (sample_forecast (sample_net 10%float 11%float) sample_view true) = Ok 0%nat
    /\ frame_after (sample_forecast (sample_net 10%float 11%float) sample_view true)
       = Some d
    /\ get_column d ("a", "target_0.025") = Ok lower
    /\ get_column d ("a", "target") = Ok target
    /\ lower !! 0%nat = Some 20%float
    /\ target !! 0%nat = Some 10%float
    /\ le 20%float 10%float = false.
Proof.
  eexists. eexists. eexists.
  split; [reflexivity|]. split; [reflexivity|].
  split; [reflexivity|]. split; [reflexivity|].
  split; [reflexivity|]. split; reflexivity.
Qed.

Lemma forecast_interval_bracket_witness :
  exists w' ts_v' lower target upper l t u,
    forecast sample_format (sample_model (sample_net 25%float 26%float)) 0%nat
      true [0.025%float; 0.975%float] (sample_world sample_view)
    = (w', Ok 0%nat)
    /\ heap w' !! 0%nat = Some ts_v'
    /\ get_column (df ts_v') ("a", "target_0.025") = Ok lower
    /\ get_column (df ts_v') ("a", "target") = Ok target
    /\ get_column (df ts_v') ("a", "target_0.975") = Ok upper
    /\ lower !! 1%nat = Some l /\ target !! 1%nat = Some t
    /\ upper !! 1%nat = Some u
    /\ le l t = true /\ le t u = true.
Proof.
  destruct (forecast_interval_bracket sample_format
              (sample_model (sample_net 25%float 26%float)) 0%nat
              [0.025%float; 0.975%float] (sample_world sample_view)
              sample_view (mkPFT 0%nat (Some 1%nat)) 1%nat
              (sample_net 25%float 26%float))
    as (w' & ts_v' & Hrun & Hheap & Hvals).
  - reflexivity.
  - reflexivity.
  - reflexivity.
  - reflexivity.
  - apply sample_point_shape_ok.
  - apply sample_interval_shape_ok.
  - apply sample_keeps_lookups.
  - reflexivity.
  - reflexivity.
  - rewrite sample_quantile_columns.
    apply (bool_decide_unpack _). vm_compute. exact I.
  - rewrite sample_quantile_columns.
    intros segment n [<-|[<-|[]]] [H|[H|[]]]; discriminate H.
  - destruct (Hvals 0%nat "a" 1%nat 0%nat 1%nat 0.025%float 0.975%float)
      as (lower & target & upper & l & t & u & Hlo & Htg & Hup & Hl & Ht & Hu
          & El & Et & Eu & Hle); try reflexivity.
    + unfold len. simpl. lia.
    + exists w', ts_v', lower, target, upper, l, t, u.
      destruct Hle as [Hlt Htu]; try reflexivity.
      repeat (split; [assumption|]). assumption.
Defined.




Lemma forecast_interval_adds_quantile_columns_witness :
  exists w' ts_v' col,
    forecast sample_format (sample_model (sample_net 25%float 26%float)) 0%nat
      true [0.025%float; 0.975%float] (sample_world sample_view)
    = (w', Ok 0%nat)
    /\ heap w' !! 0%nat = Some ts_v'
    /\ In ("a", "target_0.025") (keys (df ts_v'))
    /\ In ("a", "target_0.975") (keys (df ts_v'))
    /\ In ("a", "feature") (keys (df ts_v'))
    /\ In ("a", "target") (keys (df ts_v'))
    /\ In (("a", "target_0.975"), col) (columns (df ts_v'))
    /\ length col = 2%nat
    /\ col !! 0%nat = Some 30%float
    /\ col !! 1%nat = Some 30%float.
Proof.
  destruct (forecast_interval_adds_quantile_columns sample_format
              (sample_model (sample_net 25%float 26%float)) 0%nat
              [0.025%float; 0.975%float] (sample_world sample_view)
              sample_view (mkPFT 0%nat (Some 1%nat)) 1%nat
              (sample_net 25%float 26%float))
    as (w' & ts_v' & Hrun & Hheap & Hq & Hold & Hvals).
  - reflexivity.
  - reflexivity.
  - reflexivity.
  - reflexivity.
  - apply sample_point_shape_ok.
  - apply sample_interval_shape_ok.
  - reflexivity.
  - apply sample_keeps_keys.
  - apply sample_keeps_other_columns.
  - destruct (Hvals 0%nat "a" 1%nat 0.975%float eq_refl eq_refl)
      as (col & Hcol & Hlen & Hcells).
    exists w', ts_v', col. split; [exact Hrun|]. split; [exact Hheap|].
    split; [|split; [|split; [|split; [|split; [|split; [|split]]]]]].
    + apply (Hq "a" 0.025%float); simpl; auto.
    + apply (Hq "a" 0.975%float); simpl; auto.
    + apply Hold. simpl. auto.
    + apply Hold. simpl. auto.
    + exact Hcol.
    + exact Hlen.
    + apply (Hcells 0%nat). unfold len. simpl. lia.
    + apply (Hcells 1%nat). unfold len. simpl. lia.
Defined.

End DeepARWitnesses.


(* ===================================================================== *)
(** * Properties of the interval outliers *)
(* ===================================================================== *)

Section FloatOrder.

Lemma SFcompare_antisym (x y : spec_float) :
  SFcompare y x = option_map CompOpp (SFcompare x y).
Proof.
  destruct x as [sx|sx| |sx mx ex], y as [sy|sy| |sy my ey]; simpl;
    try reflexivity;
    try (destruct sx; reflexivity); try (destruct sy; reflexivity);
    try (destruct sx, sy; reflexivity).
  destruct sx, sy; simpl; try reflexivity.
  - rewrite (Z.compare_antisym ex ey).
    destruct (ex ?= ey)%Z; simpl; try reflexivity.
    now rewrite (Pos.compare_cont_antisym mx my Eq).
  - rewrite (Z.compare_antisym ex ey).
    destruct (ex ?= ey)%Z; simpl; try reflexivity.
    now rewrite (Pos.compare_cont_antisym mx my Eq).
Qed.

(** On [float64], [a <= b] excludes [a > b]. *)
Lemma le_not_gt (a b : value) : le a b = true -> gt a b = false.
Proof.
  unfold le, gt. rewrite leb_spec, ltb_spec. unfold SFleb, SFltb.
  rewrite (SFcompare_antisym (Prim2SF a) (Prim2SF b)).
  destruct (SFcompare (Prim2SF a) (Prim2SF b)) as [[ | | ]|]; simpl;
    congruence.
Qed.

(** On [float64], [b <= a] excludes [a < b]. *)
Lemma le_not_lt (a b : value) : le b a = true -> lt a b = false.
Proof. intros H. apply (le_not_gt b a H). Qed.

End FloatOrder.

Section OutlierFacts.
Import Outliers OutliersSpec.

Lemma find_column_filter_segment cs segment f :
  find_column
    (List.filter (fun c : column_key * list value =>
                    String.eqb (fst (fst c)) segment) cs) (segment, f)
  = find_column cs (segment, f).
Proof.
  induction cs as [|[[s g] vs] cs IH]; simpl; [reflexivity|].
  destruct (String.eqb s segment) eqn:E; simpl.
  - now rewrite IH.
  - unfold key_eqb. simpl. rewrite E. simpl. exact IH.
Qed.

Lemma getitem_segment_get_column d segment f vs :
  get_column d (segment, f) = Ok vs ->
  exists slice,
    getitem_segment d segment = Ok slice
    /\ forall g, get_column slice (segment, g) = get_column d (segment, g).
Proof.
  unfold get_column, getitem_segment. intros Hf.
  pose proof (find_column_filter_segment (columns d) segment) as Hfind.
  match goal with
  | |- context [List.filter ?g ?l] =>
      change (List.filter _ l) with (List.filter g l) in Hfind;
      destruct (List.filter g l) as [|c cs] eqn:E
  end.
  - exfalso. specialize (Hfind f). simpl in Hfind.
    destruct (find_column (columns d) (segment, f)); discriminate.
  - eexists. split; [reflexivity|]. intros g. cbn [columns]. now rewrite Hfind.
Qed.

Lemma segment_outliers_ok time_points d segment target upper lower :
  get_column d (segment, "target") = Ok target ->
  get_column d (segment, "target_upper") = Ok upper ->
  get_column d (segment, "target_lower") = Ok lower ->
  length target = length time_points ->
  length upper = length time_points ->
  length lower = length time_points ->
  segment_outliers time_points d segment
  = Ok (flagged time_points target upper lower).
Proof.
  intros Ht Hu Hl Lt Lu Ll. unfold segment_outliers.
  destruct (getitem_segment_get_column d segment "target" target Ht)
    as (slice & -> & Hslice).
  simpl. rewrite !Hslice, Ht, Hu, Hl. simpl.
  unfold boolean_index.
  rewrite !length_zip_with, Lt, Lu, Ll, !Nat.min_id, Nat.eqb_refl.
  reflexivity.
Qed.

(** A time stamp is selected exactly when it stands at a position where the
    target is strictly above the upper bound or strictly below the lower
    bound. *)
Lemma In_flagged time_points target upper lower x :
  In x (flagged time_points target upper lower)
  <-> exists i a u l,
        time_points !! i = Some x /\ target !! i = Some a
        /\ upper !! i = Some u /\ lower !! i = Some l
        /\ (gt a u = true \/ lt a l = true).
Proof.
  unfold flagged. rewrite in_map_iff. split.
  - intros ([y b] & <- & Hin). apply filter_In in Hin as [Hin Hb].
    simpl in Hb. subst b.
    apply list_elem_of_In, list_elem_of_lookup in Hin as [i Hi].
    apply lookup_zip_Some in Hi as [Hy Hm].
    apply lookup_zip_with_Some in Hm as (b1 & b2 & Hor & H1 & H2).
    apply lookup_zip_with_Some in H1 as (a & u & -> & Ha & Hu).
    apply lookup_zip_with_Some in H2 as (a' & l & -> & Ha' & Hl).
    assert (a' = a) as -> by congruence.
    exists i, a, u, l. simpl. repeat (split; [assumption|]).
    symmetry in Hor. now apply orb_true_iff in Hor.
  - intros (i & a & u & l & Hx & Ha & Hu & Hl & Hor).
    exists (x, true). split; [reflexivity|]. apply filter_In. split; [|reflexivity].
    apply list_elem_of_In. apply (list_elem_of_lookup_2 _ i).
    apply lookup_zip_Some. split; [exact Hx|].
    apply lookup_zip_with_Some. exists (gt a u), (lt a l).
    split; [symmetry; now apply orb_true_iff|].
    split; apply lookup_zip_with_Some; eauto.
Qed.

Lemma In_selected {A} (l : list A) (mask : list bool) x :
  In x (map fst (List.filter snd (zip l mask))) -> In x l.
Proof.
  rewrite in_map_iff. intros ([y b] & <- & Hin).
  apply filter_In in Hin as [Hin _].
  apply list_elem_of_In, list_elem_of_lookup in Hin as [i Hi].
  apply lookup_zip_Some in Hi as [Hy _]. simpl.
  apply list_elem_of_In. eapply list_elem_of_lookup_2. exact Hy.
Qed.

(** Selecting by a mask keeps the order of the array. *)
Lemma selected_sorted (l : list timestamp) (mask : list bool) :
  StronglySorted Z.lt l ->
  StronglySorted Z.lt (map fst (List.filter snd (zip l mask))).
Proof.
  intros Hs. revert mask.
  induction Hs as [|x l Hs IH Hall]; intros mask; [constructor|].
  destruct mask as [|b mask]; [constructor|].
  change (zip (x :: l) (b :: mask)) with ((x, b) :: zip l mask).
  simpl. destruct b; simpl; [|apply IH].
  constructor; [apply IH|].
  rewrite List.Forall_forall in *. intros y Hy. apply Hall.
  now apply In_selected in Hy.
Qed.

Lemma flagged_sorted time_points target upper lower :
  StronglySorted Z.lt time_points ->
  StronglySorted Z.lt (flagged time_points target upper lower).
Proof. apply selected_sorted. Qed.

(** The loop over the segments, when every segment has its three columns. *)
Lemma outliers_loop_ok time_points d (f : string -> list timestamp) segs acc :
  (forall s, In s segs -> segment_outliers time_points d s = Ok (f s)) ->
  exists m,
    outliers_loop time_points d segs acc = Ok m
    /\ (forall s, In s segs -> m !! s = Some (f s))
    /\ (forall s, ~ In s segs -> m !! s = acc !! s).
Proof.
  revert acc. induction segs as [|s0 segs IH]; intros acc Hall; simpl.
  - exists acc. split; [reflexivity|]. split; [tauto|reflexivity].
  - rewrite (Hall s0) by now left. simpl.
    destruct (IH (<[s0 := f s0]> acc)) as (m & Hm & Hin & Hout).
    { intros s Hs. apply Hall. now right. }
    exists m. split; [exact Hm|]. split.
    + intros s [<-|Hs]; [|now apply Hin].
      destruct (in_dec String.string_dec s0 segs) as [Hs|Hs]; [now apply Hin|].
      rewrite (Hout s0 Hs). apply lookup_insert_eq.
    + intros s Hs. rewrite Hout by tauto.
      apply lookup_insert_ne. tauto.
Qed.

End OutlierFacts.

Section OutlierProperties.
Import Outliers OutliersSpec.
Context {TimeSeriesDataSet Other : Type}.

#[local] Abbreviation W' := (World TimeSeriesDataSet Other).
#[local] Abbreviation IModel := (IntervalModel TimeSeriesDataSet Other).

Lemma bind_keeps {A B} (K : W' -> Prop) (c : M W' A) (k : A -> M W' B) w :
  K (fst (c w)) ->
  (forall a, snd (c w) = Ok a -> K (fst (c w)) -> K (fst (k a (fst (c w))))) ->
  K (fst (bind c k w)).
Proof.
  unfold bind. destruct (c w) as [w1 [a|e]]; simpl; [|tauto].
  intros HK Hk. now apply Hk.
Qed.

Lemma bind_Ok_inv {A B} (c : M W' A) (k : A -> M W' B) w w' b :
  bind c k w = (w', Ok b) ->
  exists a w1, c w = (w1, Ok a) /\ k a w1 = (w', Ok b).
Proof.
  unfold bind. destruct (c w) as [w1 [a|e]]; [eauto|discriminate].
Qed.

Lemma read_world (l : loc) (w : W') : fst (read l w) = w.
Proof. unfold read. now destruct (heap w !! l). Qed.

Lemma alloc_keeps (v : TSDataset TimeSeriesDataSet) (w : W') l0 v0 :
  heap w !! l0 = Some v0 ->
  heap (fst (alloc v w)) !! l0 = Some v0
  /\ forall l, snd (alloc v w) = Ok l -> l <> l0.
Proof.
  intros Hl0. unfold alloc. simpl.
  assert (Hne : fresh (dom (heap w)) <> l0).
  { intros <-. apply (is_fresh (dom (heap w))). apply elem_of_dom. eauto. }
  split.
  - now rewrite lookup_insert_ne.
  - now intros l [= <-].
Qed.

Lemma deepcopy_keeps (l : loc) (w : W') l0 v0 :
  heap w !! l0 = Some v0 ->
  heap (fst (deepcopy l w)) !! l0 = Some v0
  /\ forall c, snd (deepcopy l w) = Ok c -> c <> l0.
Proof.
  intros Hl0. unfold deepcopy, bind, read.
  destruct (heap w !! l) as [v|]; simpl.
  - now apply alloc_keeps.
  - split; [exact Hl0|discriminate].
Qed.

Lemma create_ts_by_column_keeps (ts : loc) column (w : W') l0 v0 :
  heap w !! l0 = Some v0 ->
  heap (fst (create_ts_by_column ts column w)) !! l0 = Some v0.
Proof.
  intros Hl0. unfold create_ts_by_column, bind, read, lift, TSDataset_new.
  destruct (heap w !! ts) as [v|]; simpl; [|exact Hl0].
  destruct (getitem_feature (df v) column) as [d|e]; simpl; [|exact Hl0].
  now apply alloc_keeps.
Qed.

(** The statements before the loop leave the caller's dataset as it was. *)
Lemma predict_interval_keeps (ts : loc) (model : ModelClass TimeSeriesDataSet Other)
  interval_width in_column (w : W') ts_v :
  heap w !! ts = Some ts_v ->
  (forall o o' mi, model o = (o', Ok mi) ->
     fit_touches_no_dataset mi /\ forecast_in_place mi) ->
  heap (fst (predict_interval ts model interval_width in_column w)) !! ts
  = Some ts_v.
Proof.
  intros Hts Hmodel. unfold predict_interval.
  apply (bind_keeps (fun w0 => heap w0 !! ts = Some ts_v)).
  { destruct (String.eqb in_column "target"); [exact Hts|].
    now apply create_ts_by_column_keeps. }
  intros ts_inner _ HK1.
  apply (bind_keeps (fun w0 => heap w0 !! ts = Some ts_v)).
  { now rewrite read_world. }
  intros ts_v' _ HK2.
  apply (bind_keeps (fun w0 => heap w0 !! ts = Some ts_v)).
  { unfold construct. now destruct (model _). }
  intros mi Hmi HK3.
  assert (Hmi' : fit_touches_no_dataset mi /\ forecast_in_place mi).
  { unfold construct in Hmi.
    destruct (model (other _)) as [o' r] eqn:E. simpl in Hmi. subst r.
    eapply Hmodel. exact E. }
  destruct Hmi' as [Hfit Hfc].
  apply (bind_keeps (fun w0 => heap w0 !! ts = Some ts_v)).
  { now rewrite Hfit. }
  intros _ _ HK4.
  apply (bind_keeps (fun w0 => heap w0 !! ts = Some ts_v)).
  { now apply deepcopy_keeps. }
  intros copy Hcopy HK5.
  apply (bind_keeps (fun w0 => heap w0 !! ts = Some ts_v)).
  { apply Hfc; [|exact HK5]. intros <-.
    eapply (proj2 (deepcopy_keeps _ _ _ _ HK4)); [exact Hcopy|reflexivity]. }
  intros ci _ HK6. exact HK6.
Qed.

Lemma get_anomalies_world (ts : loc) (model : ModelClass TimeSeriesDataSet Other)
  interval_width in_column (w : W') :
  fst (get_anomalies_confidence_interval ts model interval_width in_column w)
  = fst (predict_interval ts model interval_width in_column w).
Proof.
  unfold get_anomalies_confidence_interval, bind.
  destruct (predict_interval _ _ _ _ w) as [w1 [[[tp inner] ci]|e]];
    [|reflexivity].
  unfold read, lift. simpl.
  destruct (heap w1 !! inner); simpl; [|reflexivity].
  destruct (heap w1 !! ci); reflexivity.
Qed.

(** C10: whatever the outcome of [get_anomalies_confidence_interval], the
    dataset object of the caller holds afterwards what it held before,
    provided [fit] changes no dataset and the forecast works in place on the
    view it is given (here: the deep copy). *)
Theorem get_anomalies_leaves_input (ts : loc)
  (model : ModelClass TimeSeriesDataSet Other)
  (interval_width : value) (in_column : string) (w : W')
  (ts_v : TSDataset TimeSeriesDataSet) :
  heap w !! ts = Some ts_v ->
  (forall o o' mi, model o = (o', Ok mi) ->
     fit_touches_no_dataset mi /\ forecast_in_place mi) ->
  heap (fst (get_anomalies_confidence_interval ts model interval_width
               in_column w)) !! ts
  = Some ts_v.
Proof.
  intros Hts Hmodel. rewrite get_anomalies_world.
  now apply predict_interval_keeps.
Qed.

Lemma predict_interval_time_points (ts : loc)
  (model : ModelClass TimeSeriesDataSet Other)
  interval_width in_column (w w' : W') ts_v tp inner ci :
  heap w !! ts = Some ts_v ->
  predict_interval ts model interval_width in_column w = (w', Ok (tp, inner, ci)) ->
  tp = index (df ts_v).
Proof.
  intros Hts Hrun. unfold predict_interval in Hrun.
  apply bind_Ok_inv in Hrun as (inner0 & w1 & H1 & Hrun).
  apply bind_Ok_inv in Hrun as (ts_v' & w2 & H2 & Hrun).
  apply bind_Ok_inv in Hrun as (mi & w3 & _ & Hrun).
  apply bind_Ok_inv in Hrun as (u & w4 & _ & Hrun).
  apply bind_Ok_inv in Hrun as (copy & w5 & _ & Hrun).
  apply bind_Ok_inv in Hrun as (ci0 & w6 & _ & Hrun).
  unfold ret in Hrun. injection Hrun as _ <- _ _.
  assert (HK : heap w1 !! ts = Some ts_v).
  { replace w1 with (fst ((if String.eqb in_column "target"
                           then ret ts
                           else create_ts_by_column ts in_column) w))
      by now rewrite H1.
    destruct (String.eqb in_column "target"); [exact Hts|].
    now apply create_ts_by_column_keeps. }
  unfold read in H2. rewrite HK in H2. now injection H2 as _ <-.
Qed.

Lemma predict_interval_target_inner (ts : loc)
  (model : ModelClass TimeSeriesDataSet Other)
  interval_width (w w' : W') tp inner ci :
  predict_interval ts model interval_width "target" w = (w', Ok (tp, inner, ci)) ->
  inner = ts.
Proof.
  intros Hrun. unfold predict_interval in Hrun. simpl String.eqb in Hrun.
  cbv iota in Hrun.
  apply bind_Ok_inv in Hrun as (inner0 & w1 & H1 & Hrun).
  apply bind_Ok_inv in Hrun as (ts_v' & w2 & _ & Hrun).
  apply bind_Ok_inv in Hrun as (mi & w3 & _ & Hrun).
  apply bind_Ok_inv in Hrun as (u & w4 & _ & Hrun).
  apply bind_Ok_inv in Hrun as (copy & w5 & _ & Hrun).
  apply bind_Ok_inv in Hrun as (ci0 & w6 & _ & Hrun).
  unfold ret in Hrun, H1. injection Hrun as _ _ <- _. now injection H1 as _ <-.
Qed.

(** C5: when the forecast of the interval model has kept, for every segment
    of the analysed dataset, the target column of the dataset as it is and
    has added the columns [target_upper] and [target_lower] over the time
    index, the report has exactly these segments as keys, and the list of a
    segment holds exactly the time stamps at which the target of the
    analysed dataset is strictly above the upper or strictly below the lower
    bound (a point within the bounds, the bounds included, is not listed),
    in the order of the time index.  For a model whose [fit] changes no
    dataset and whose forecast works in place, the dataset of the caller is
    then as it was before the call, and for the target column it is the
    analysed dataset itself. *)
Theorem get_anomalies_report (ts : loc)
  (model : ModelClass TimeSeriesDataSet Other)
  (interval_width : value) (in_column : string) (w w' : W')
  (ts_v inner_v ci_v : TSDataset TimeSeriesDataSet)
  (tp : list timestamp) (inner ci : loc) :
  heap w !! ts = Some ts_v ->
  predict_interval ts model interval_width in_column w = (w', Ok (tp, inner, ci)) ->
  heap w' !! inner = Some inner_v ->
  heap w' !! ci = Some ci_v ->
  (forall s, In s (segments inner_v) ->
     exists t u l,
       get_column (df inner_v) (s, "target") = Ok t
       /\ get_column (df ci_v) (s, "target") = Ok t
       /\ get_column (df ci_v) (s, "target_upper") = Ok u
       /\ get_column (df ci_v) (s, "target_lower") = Ok l
       /\ length t = length tp /\ length u = length tp
       /\ length l = length tp) ->
  exists m,
    get_anomalies_confidence_interval ts model interval_width in_column w
    = (w', Ok m)
    /\ tp = index (df ts_v)
    /\ (forall s, is_Some (m !! s) <-> In s (segments inner_v))
    /\ (forall s t u l,
          In s (segments inner_v) ->
          get_column (df inner_v) (s, "target") = Ok t ->
          get_column (df ci_v) (s, "target_upper") = Ok u ->
          get_column (df ci_v) (s, "target_lower") = Ok l ->
          exists out,
            m !! s = Some out
            /\ (forall x,
                  In x out
                  <-> exists i a hi lo,
                        tp !! i = Some x /\ t !! i = Some a
                        /\ u !! i = Some hi /\ l !! i = Some lo
                        /\ (gt a hi = true \/ lt a lo = true))
            /\ (StronglySorted Z.lt tp -> StronglySorted Z.lt out)
            /\ (forall i x a hi lo,
                  NoDup tp ->
                  tp !! i = Some x -> t !! i = Some a ->
                  u !! i = Some hi -> l !! i = Some lo ->
                  le lo a = true -> le a hi = true ->
                  ~ In x out))
    /\ ((forall o o' mi, model o = (o', Ok mi) ->
           fit_touches_no_dataset mi /\ forecast_in_place mi) ->
        heap w' !! ts = Some ts_v
        /\ (in_column = "target" -> inner = ts /\ inner_v = ts_v)).
Proof.
  intros Hts Hrun Hinner Hci Hcols.
  pose (col := fun (s g : string) =>
                 match find_column (columns (df ci_v)) (s, g) with
                 | Some vs => vs
                 | None => []
                 end).
  pose (f := fun s => flagged tp (col s "target") (col s "target_upper")
                        (col s "target_lower")).
  assert (Hcol : forall s g vs, get_column (df ci_v) (s, g) = Ok vs -> col s g = vs).
  { intros s g vs. unfold get_column, col.
    destruct (find_column _ _); [now intros [= ->]|discriminate]. }
  destruct (outliers_loop_ok tp (df ci_v) f (segments inner_v) ∅)
    as (m & Hm & Hin & Hout).
  { intros s Hs.
    destruct (Hcols s Hs) as (t & u & l & _ & Ht & Hu & Hl & Lt & Lu & Ll).
    unfold f. rewrite (Hcol _ _ _ Ht), (Hcol _ _ _ Hu), (Hcol _ _ _ Hl).
    now apply segment_outliers_ok. }
  exists m. split; [|split; [|split; [|split]]].
  - unfold get_anomalies_confidence_interval, bind. rewrite Hrun.
    unfold read, lift. simpl. rewrite Hinner. simpl. rewrite Hci. simpl.
    now rewrite Hm.
  - eapply predict_interval_time_points; eassumption.
  - intros s. split.
    + intros Hsome.
      destruct (in_dec String.string_dec s (segments inner_v)) as [Hs|Hs];
        [exact Hs|].
      rewrite (Hout s Hs), lookup_empty in Hsome. now destruct Hsome.
    + intros Hs. rewrite (Hin s Hs). eauto.
  - intros s t u l Hs Ht Hu Hl. exists (f s). split; [now apply Hin|].
    assert (Ht' : get_column (df ci_v) (s, "target") = Ok t).
    { destruct (Hcols s Hs) as (t0 & _ & _ & Ht0 & Hci0 & _).
      rewrite Hci0. congruence. }
    unfold f. rewrite (Hcol _ _ _ Ht'), (Hcol _ _ _ Hu), (Hcol _ _ _ Hl).
    split; [|split].
    + intros x. apply In_flagged.
    + apply flagged_sorted.
    + intros i x a hi lo Hnd Hx Ha Hhi Hlo Hle1 Hle2 Hflag.
      apply In_flagged in Hflag
        as (j & a' & hi' & lo' & Hx' & Ha' & Hhi' & Hlo' & Hor).
      assert (j = i) as -> by (eapply NoDup_lookup; eassumption).
      assert (a' = a) as -> by congruence.
      assert (hi' = hi) as -> by congruence.
      assert (lo' = lo) as -> by congruence.
      rewrite (le_not_gt a hi Hle2), (le_not_lt a lo Hle1) in Hor.
      destruct Hor; discriminate.
  - intros Hmodel.
    assert (Hkeep : heap w' !! ts = Some ts_v).
    { pose proof (predict_interval_keeps ts model interval_width in_column w
                    ts_v Hts Hmodel) as Hk.
      now rewrite Hrun in Hk. }
    split; [exact Hkeep|]. intros ->.
    assert (inner = ts) as ->
      by (eapply predict_interval_target_inner; exact Hrun).
    split; [reflexivity|]. congruence.
Qed.

End OutlierProperties.


Section OutlierWitnesses.
Import Outliers OutliersSpec OutlierExamples.

Lemma sample_class_frames :
  forall o o' mi, sample_class o = (o', Ok mi) ->
    fit_touches_no_dataset mi /\ forecast_in_place mi.
Proof.
  intros o o' mi [= _ <-]. split.
  - intros l w. reflexivity.
  - intros l b iw w l' v Hne Hl'. simpl. unfold bind, read, write, modify, ret.
    destruct (heap w !! l); simpl; [|exact Hl'].
    now rewrite lookup_insert_ne.
Qed.

Example sample_report :
  snd (get_anomalies_confidence_interval 0%nat sample_class 0.95%float
         "target" sample_store)
  = Ok {[ "a" := [2%Z; 3%Z] ]}.
Proof. vm_compute. reflexivity. Qed.

Example sample_report_exog :
  snd (get_anomalies_confidence_interval 0%nat sample_class 0.95%float
         "exog" sample_store)
  = Ok {[ "a" := [] ]}.
Proof. vm_compute. reflexivity. Qed.

Lemma get_anomalies_leaves_input_witness :
  heap (fst (get_anomalies_confidence_interval 0%nat sample_class 0.95%float
               "target" sample_store)) !! 0%nat
  = Some sample_history
  /\ heap (fst (get_anomalies_confidence_interval 0%nat sample_class 0.95%float
                  "exog" sample_store)) !! 0%nat
     = Some sample_history.
Proof.
  split.
  - apply (get_anomalies_leaves_input 0%nat sample_class 0.95%float "target"
             sample_store sample_history);
      [reflexivity|apply sample_class_frames].
  - apply (get_anomalies_leaves_input 0%nat sample_class 0.95%float "exog"
             sample_store sample_history);
      [reflexivity|apply sample_class_frames].
Defined.

Lemma get_anomalies_report_witness :
  exists m out,
    snd (get_anomalies_confidence_interval 0%nat sample_class 0.95%float
           "target" sample_store) = Ok m
    /\ (forall s, is_Some (m !! s) <-> In s (segments sample_history))
    /\ m !! "a" = Some out
    /\ In 2%Z out /\ In 3%Z out /\ ~ In 1%Z out
    /\ StronglySorted Z.lt out.
Proof.
  pose (run := predict_interval 0%nat sample_class 0.95%float "target" sample_store).
  pose (ci_v := mkTS (mkDF [1%Z; 2%Z; 3%Z]
                  [(("a", "exog"), [10%float; 0%float; 10%float]);
                   (("a", "target"), [5%float; 50%float; (-3)%float]);
                   (("a", "target_lower"), [0%float; 0%float; 0%float]);
                   (("a", "target_upper"), [10%float; 10%float; 10%float])])
                None "D" : TSDataset nat).
  assert (Hrun : run = (fst run, Ok ([1%Z; 2%Z; 3%Z], 0%nat, 1%nat))).
  { rewrite (surjective_pairing run) at 1. f_equal. }
  destruct (get_anomalies_report 0%nat sample_class 0.95%float "target"
              sample_store (fst run) sample_history sample_history ci_v
              [1%Z; 2%Z; 3%Z] 0%nat 1%nat)
    as (m & Hm & _ & Hkeys & Hvals & _).
  - reflexivity.
  - exact Hrun.
  - reflexivity.
  - reflexivity.
  - intros s [<-|[]].
    exists [5%float; 50%float; (-3)%float], [10%float; 10%float; 10%float],
      [0%float; 0%float; 0%float].
    repeat split; reflexivity.
  - destruct (Hvals "a" [5%float; 50%float; (-3)%float]
                [10%float; 10%float; 10%float] [0%float; 0%float; 0%float])
      as (out & Hout & Hin & Hsorted & Hinside); try reflexivity.
    { simpl. now left. }
    exists m, out. split; [now rewrite Hm|]. split; [exact Hkeys|].
    split; [exact Hout|]. split; [|split; [|split]].
    + apply Hin. exists 1%nat, 50%float, 10%float, 0%float.
      repeat split; try reflexivity. now left.
    + apply Hin. exists 2%nat, (-3)%float, 10%float, 0%float.
      repeat split; try reflexivity. now right.
    + apply (Hinside 0%nat 1%Z 5%float 10%float 0%float); try reflexivity.
      apply (bool_decide_unpack _). vm_compute. exact I.
    + apply Hsorted. repeat constructor.
Defined.

End OutlierWitnesses.

(* ===================================================================== *)
(** * Further properties of the ensemble mixin *)
(* ===================================================================== *)

Section EnsembleFurther.
Import EnsembleMixin.
Context {W TSDataset : Type} `{Logger W}.
Implicit Types (pipelines : list (Pipeline W TSDataset)).

Lemma horizons_elem pipelines (h : Z) :
  h ∈ (list_to_set (map horizon pipelines) : gset Z)
  <-> exists p, In p pipelines /\ horizon p = h.
Proof.
  rewrite elem_of_list_to_set, list_elem_of_In, in_map_iff.
  split; intros (p & Hp); exists p; tauto.
Qed.

(** A set with more than one element has two different elements. *)
Lemma two_elements (X : gset Z) :
  (1 < size X)%nat -> exists x y, x ∈ X /\ y ∈ X /\ x <> y.
Proof.
  intros Hsz. unfold size, set_size in Hsz. simpl in Hsz.
  pose proof (NoDup_elements X) as Hnd.
  destruct (elements X) as [|x [|y l]] eqn:E; simpl in Hsz; try lia.
  exists x, y. rewrite <- !elem_of_elements, E.
  split; [left|]. split; [right; left|].
  apply NoDup_cons in Hnd as [Hx _]. intros ->. apply Hx. left.
Qed.

Lemma get_horizon_sound_aux pipelines (h : Z) :
  _get_horizon pipelines = Ok h ->
  pipelines <> [] /\ forall p, In p pipelines -> horizon p = h.
Proof.
  unfold _get_horizon. cbv zeta.
  destruct (Nat.ltb_spec 1 (size (list_to_set (map horizon pipelines) : gset Z)))
    as [Hgt|Hle]; [discriminate|].
  unfold set_pop.
  destruct (elements (list_to_set (map horizon pipelines) : gset Z))
    as [|h0 l] eqn:E; [discriminate|].
  intros [= ->].
  assert (Hh : h ∈ (list_to_set (map horizon pipelines) : gset Z)).
  { apply elem_of_elements. rewrite E. left. }
  split.
  - intros ->. simpl in Hh. now apply not_elem_of_empty in Hh.
  - intros p Hp.
    assert (Hp' : horizon p ∈ (list_to_set (map horizon pipelines) : gset Z)).
    { apply horizons_elem. eauto. }
    destruct (Z.eq_dec (horizon p) h) as [Heq|Hne]; [exact Heq|].
    exfalso.
    assert (Hsub : ({[ horizon p ]} ∪ {[ h ]} : gset Z)
                     ⊆ list_to_set (map horizon pipelines)).
    { intros x. rewrite elem_of_union, !elem_of_singleton.
      intros [-> | ->]; assumption. }
    apply subseteq_size in Hsub.
    rewrite size_union in Hsub
      by (intros x; rewrite !elem_of_singleton; congruence).
    rewrite !size_singleton in Hsub. lia.
Qed.

(** X1: when the horizon resolves to [h], there is at least one pipeline and
    every pipeline has horizon [h]. *)
Theorem get_horizon_sound pipelines (h : Z) :
  _get_horizon pipelines = Ok h ->
  pipelines <> [] /\ forall p, In p pipelines -> horizon p = h.
Proof. apply get_horizon_sound_aux. Qed.

(** X2: the two ways in which resolving the horizon fails: [KeyError] exactly
    on the empty list, [ValueError] exactly when two pipelines differ in
    their horizon; there is no other error. *)
Theorem get_horizon_errors pipelines :
  (_get_horizon pipelines = Raise (KeyError "pop from an empty set")
   <-> pipelines = [])
  /\ (_get_horizon pipelines
      = Raise (ValueError "All the pipelines should have the same horizon.")
      <-> exists p q, In p pipelines /\ In q pipelines /\ horizon p <> horizon q)
  /\ (forall e, _get_horizon pipelines = Raise e ->
        e = KeyError "pop from an empty set"
        \/ e = ValueError "All the pipelines should have the same horizon.").
Proof.
  assert (Hcases :
    (pipelines = []
     /\ _get_horizon pipelines = Raise (KeyError "pop from an empty set"))
    \/ (pipelines <> []
        /\ (exists p q, In p pipelines /\ In q pipelines /\ horizon p <> horizon q)
        /\ _get_horizon pipelines
           = Raise (ValueError "All the pipelines should have the same horizon."))
    \/ (pipelines <> []
        /\ (forall p q, In p pipelines -> In q pipelines -> horizon p = horizon q)
        /\ exists h, _get_horizon pipelines = Ok h)).
  { destruct pipelines as [|p0 ps]; [left; split; reflexivity|].
    right. unfold _get_horizon. cbv zeta.
    destruct (Nat.ltb_spec 1
                (size (list_to_set (map horizon (p0 :: ps)) : gset Z)))
      as [Hgt|Hle].
    - left. split; [discriminate|]. split; [|reflexivity].
      destruct (two_elements _ Hgt) as (x & y & Hx & Hy & Hxy).
      apply horizons_elem in Hx as (p & Hp & <-).
      apply horizons_elem in Hy as (q & Hq & <-). eauto.
    - right. split; [discriminate|].
      assert (Hall : forall p q, In p (p0 :: ps) -> In q (p0 :: ps) ->
                       horizon p = horizon q).
      { intros p q Hp Hq.
        destruct (Z.eq_dec (horizon p) (horizon q)) as [Heq|Hne]; [exact Heq|].
        pose proof (horizons_two (p0 :: ps) p q Hp Hq Hne). lia. }
      split; [exact Hall|]. exists (horizon p0).
      rewrite (horizons_singleton (p0 :: ps) (horizon p0)).
      + unfold set_pop. now rewrite elements_singleton.
      + discriminate.
      + intros p Hp. apply Hall; [exact Hp|now left]. }
  destruct Hcases as [[Hnil Hrun]|[(Hne & Hdiff & Hrun)|(Hne & Hsame & h & Hrun)]];
    rewrite Hrun.
  - split; [tauto|]. split.
    + split; [discriminate|]. intros (p & q & Hp & _). subst. destruct Hp.
    + intros e [= <-]. now left.
  - split; [split; [discriminate|tauto]|]. split; [tauto|].
    intros e [= <-]. now right.
  - split; [split; [discriminate|tauto]|]. split.
    + split; [discriminate|]. intros (p & q & Hp & Hq & Hpq).
      exfalso. apply Hpq. now apply Hsame.
    + discriminate.
Qed.

(** X3: once the number of pipelines has been validated, resolving the
    horizon cannot fail with [KeyError]: it gives the horizon of the first
    pipeline, shared by all, or the [ValueError] of a mismatch. *)
Theorem validated_get_horizon pipelines :
  _validate_pipeline_number pipelines = Ok tt ->
  (exists p0 rest,
     pipelines = p0 :: rest
     /\ _get_horizon pipelines = Ok (horizon p0)
     /\ forall p, In p pipelines -> horizon p = horizon p0)
  \/ _get_horizon pipelines
     = Raise (ValueError "All the pipelines should have the same horizon.").
Proof.
  unfold _validate_pipeline_number.
  destruct (Nat.ltb_spec (length pipelines) 2) as [Hlt|Hge]; [discriminate|].
  intros _. destruct pipelines as [|p0 rest]; [simpl in Hge; lia|].
  destruct (_get_horizon (p0 :: rest)) as [h|e] eqn:Hrun.
  - left. exists p0, rest. split; [reflexivity|].
    destruct (get_horizon_sound_aux (p0 :: rest) h Hrun) as [_ Hall].
    rewrite <- (Hall p0) by now left. split; [reflexivity|].
    intros p Hp. rewrite (Hall p Hp). symmetry. apply Hall. now left.
  - right. f_equal.
    unfold _get_horizon in Hrun. cbv zeta in Hrun.
    destruct (1 <? size (list_to_set (map horizon (p0 :: rest)) : gset Z))%nat;
      [now injection Hrun as <-|].
    unfold set_pop in Hrun.
    destruct (elements (list_to_set (map horizon (p0 :: rest)) : gset Z)) eqn:E;
      [|discriminate].
    apply elements_empty_inv in E. exfalso.
    assert (Hin : horizon p0 ∈ (list_to_set (map horizon (p0 :: rest)) : gset Z))
      by (apply horizons_elem; exists p0; split; [now left|reflexivity]).
    apply E in Hin. now apply not_elem_of_empty in Hin.
Qed.

End EnsembleFurther.

(* ===================================================================== *)
(** * Further properties of [DeepARModel] *)
(* ===================================================================== *)

Section DeepARFurther.
Import EnsembleMixin DeepAR DeepARSpec.
Context {TimeSeriesDataSet Other : Type}.
Variable format_4g : value -> string.

#[local] Abbreviation W := (World TimeSeriesDataSet Other).
#[local] Abbreviation Model := (DeepARModel TimeSeriesDataSet Other).
#[local] Abbreviation forecast := (@DeepAR.forecast TimeSeriesDataSet Other format_4g).

(** X4: only the last transform of a dataset decides: the
    [PytorchForecastingTransform] is found exactly when it stands at the end
    of a non-empty list of transforms; a dataset with an empty list of
    transforms is an [IndexError]. *)
Theorem get_pf_transform_spec (ts_v : TSDataset TimeSeriesDataSet) :
  (forall pf,
     _get_pf_transform ts_v = Ok pf
     <-> exists l t, transforms ts_v = Some (l ++ [t]) /\ as_pf t = Some pf)
  /\ (transforms ts_v = Some [] ->
      _get_pf_transform ts_v = Raise (IndexError "list index out of range"))
  /\ (forall l t,
        transforms ts_v = Some (l ++ [t]) -> as_pf t = None ->
        _get_pf_transform ts_v
        = Raise (ValueError
            "Not valid usage of transforms, please add PytorchForecastingTransform at the end of transforms")).
Proof.
  unfold _get_pf_transform. split; [|split].
  - intros pf. split.
    + destruct (transforms ts_v) as [l|]; [|discriminate].
      destruct (last l) as [t|] eqn:Hlast; [|discriminate].
      destruct (as_pf t) as [pf'|] eqn:Hpf; [|discriminate].
      intros [= <-]. apply last_Some in Hlast as [l' ->]. eauto.
    + intros (l & t & -> & Hpf). now rewrite last_snoc, Hpf.
  - now intros ->.
  - intros l t -> Hpf. now rewrite last_snoc, Hpf.
Qed.

(** X5: a model that [fit] returns is fitted: it holds a network, and its
    point forecast of a view that is ready (transform at the end, future
    generated) and has the shape of the predictions returns that view; [fit]
    itself changes no dataset. *)
Theorem fit_then_forecast
  (train : Model -> DataLoader TimeSeriesDataSet -> Other ->
           LightningModule TimeSeriesDataSet Other * Other)
  (self self' : Model) (ts_train ts : loc) (quantiles : list value)
  (w w1 : W) (ts_v : TSDataset TimeSeriesDataSet) pf ds :
  DeepAR.fit train self ts_train w = (w1, Ok self') ->
  heap w !! ts = Some ts_v ->
  _get_pf_transform ts_v = Ok pf ->
  pf_dataset_predict pf = Some ds ->
  heap w1 = heap w
  /\ exists net,
       model self' = Some net
       /\ (point_shape_ok self' net ds (other w1) (df ts_v) ->
           exists w2, forecast self' ts false quantiles w1 = (w2, Ok ts)).
Proof.
  intros Hfit Hts Hpf Hds.
  destruct (fit_installs_network train self self' ts_train w w1 Hfit)
    as ((net & Hnet) & _ & _ & Hheap).
  split; [exact Hheap|]. exists net. split; [exact Hnet|].
  intros Hshape. eexists.
  eapply (forecast_point_run format_4g self' ts quantiles w1 ts_v pf ds net).
  - now rewrite Hheap.
  - exact Hpf.
  - exact Hds.
  - exact Hnet.
  - now apply loc_set_target_ok.
Qed.

(** X6: the checks of the view come first and hold for every model, fitted
    or not: a view without the transform at the end raises the error of
    [_get_pf_transform], a view whose future has not been generated raises
    the [ValueError] that says so; in both cases no dataset is written. *)
Theorem forecast_view_errors (self : Model) (ts : loc)
  (prediction_interval : bool) (quantiles : list value) (w : W)
  (ts_v : TSDataset TimeSeriesDataSet) :
  heap w !! ts = Some ts_v ->
  (forall e, _get_pf_transform ts_v = Raise e ->
     forecast self ts prediction_interval quantiles w
     = (called "forecast" w, Raise e))
  /\ (forall pf, _get_pf_transform ts_v = Ok pf ->
        pf_dataset_predict pf = None ->
        forecast self ts prediction_interval quantiles w
        = (called "forecast" w,
           Raise (ValueError
             "The future is not generated! Generate future using TSDataset make_future before calling forecast method!")))
  /\ heap (called "forecast" w) = heap w.
Proof.
  intros Hts. split; [|split; [|reflexivity]].
  - intros e He.
    unfold DeepAR.forecast, log_decorator, log, modify, bind, read, lift, raise.
    fold (called "forecast" w). now rewrite heap_called, Hts, He.
  - intros pf Hpf Hds.
    unfold DeepAR.forecast, log_decorator, log, modify, bind, read, lift, raise.
    fold (called "forecast" w). now rewrite heap_called, Hts, Hpf, Hds.
Qed.

(** X7: a point forecast writes, into a view of [n] rows, the last [n]
    predictions of each series: row [i] of the target column of the [j]-th
    segment holds prediction [T - n + i] of series [j], where [T] is the
    number of predicted steps.  This holds for every view of at most [T]
    rows, a prefix of the range as well as a suffix. *)
Theorem forecast_point_values (self : Model) (ts : loc)
  (quantiles : list value) (w : W) (ts_v : TSDataset TimeSeriesDataSet)
  pf ds net :
  let p := point_predictions self net ds (other w) in
  heap w !! ts = Some ts_v ->
  _get_pf_transform ts_v = Ok pf ->
  pf_dataset_predict pf = Some ds ->
  model self = Some net ->
  point_shape_ok self net ds (other w) (df ts_v) ->
  (forall l t, transforms ts_v = Some l -> In t l ->
     keeps_lookups (inverse_transform t)) ->
  map fst (target_keys (df ts_v)) = segments ts_v ->
  exists w' ts_v',
    forecast self ts false quantiles w = (w', Ok ts)
    /\ heap w' !! ts = Some ts_v'
    /\ forall j segment i,
         segments ts_v !! j = Some segment ->
         (i < len (df ts_v))%nat ->
         exists target,
           get_column (df ts_v') (segment, "target") = Ok target
           /\ target !! i = Some (cell p j (cols p - len (df ts_v) + i)).
Proof.
  intros p Hts Hpf Hds Hnet Hshape Hinv Halign.
  pose proof (loc_set_target_ok self net ds (other w) (df ts_v) Hshape) as Hset.
  fold p in Hset.
  set (a := tail_rows (len (df ts_v)) (T p)) in *.
  destruct Hshape as (Hpos & Hle & Hrows & Hser). fold p in Hle, Hrows, Hser.
  assert (Ha_rows : rows a = len (df ts_v)).
  { unfold a, tail_rows. simpl.
    destruct (Nat.eqb_spec (len (df ts_v)) 0); lia. }
  eexists. eexists. split; [|split].
  - apply (forecast_point_run format_4g self ts quantiles w ts_v pf ds net _
             Hts Hpf Hds Hnet Hset).
  - simpl. apply lookup_insert_eq.
  - intros j segment i Hj Hi. exists (column_of a j). unfold get_column.
    assert (Hfind :
      find_column
        (columns (df (TSDataset_inverse_transform
           (set_df ts_v (mkDF (index (df ts_v))
              (set_target_columns (columns (df ts_v)) a 0))))))
        (segment, "target")
      = Some (column_of a j)).
    { apply (inverse_transform_invariant
               (fun d => find_column (columns d) (segment, "target") = _)).
      - intros l t d0 Hl Ht Hd0. now rewrite (Hinv l t Hl Ht).
      - simpl.
        rewrite (find_set_target_columns_target (columns (df ts_v)) a 0 j
                   (segment, "target")); [reflexivity| |].
        + now apply (target_key_at (df ts_v) (segments ts_v)).
        + apply (NoDup_fmap_1 fst).
          change (NoDup (map fst (target_keys (df ts_v)))).
          rewrite Halign. apply NoDup_unique. }
    rewrite Hfind. split; [reflexivity|].
    rewrite lookup_column_of by lia. unfold a, tail_rows. simpl.
    destruct (Nat.eqb_spec (len (df ts_v)) 0); [lia|]. reflexivity.
Qed.

(** X8: an interval forecast of a view that has not as many rows as the
    network predicts steps (a strict suffix or prefix of the range, say)
    raises [ValueError] when the quantile frame is built, after the point
    predictions have been written: the view is left with its targets
    overwritten, without quantile columns, and not inverse-transformed. *)
Theorem forecast_interval_shape_mismatch (self : Model) (ts : loc)
  (quantiles : list value) (w : W) (ts_v : TSDataset TimeSeriesDataSet)
  pf ds net :
  let qp := quantile_predictions self net ds quantiles (other w) in
  heap w !! ts = Some ts_v ->
  _get_pf_transform ts_v = Ok pf ->
  pf_dataset_predict pf = Some ds ->
  model self = Some net ->
  point_shape_ok self net ds (other w) (df ts_v) ->
  dim1 qp <> len (df ts_v) ->
  exists w' e d1,
    forecast self ts true quantiles w = (w', Raise e)
    /\ exn_class e = "ValueError"
    /\ loc_set_target (df ts_v)
         (tail_rows (len (df ts_v)) (T (point_predictions self net ds (other w))))
       = Ok d1
    /\ heap w' = <[ts := set_df ts_v d1]> (heap w)
    /\ keys d1 = keys (df ts_v).
Proof.
  intros qp Hts Hpf Hds Hnet Hshape Hrows.
  pose proof (loc_set_target_ok self net ds (other w) (df ts_v) Hshape) as Hset.
  set (d1 := mkDF (index (df ts_v))
               (set_target_columns (columns (df ts_v))
                  (tail_rows (len (df ts_v))
                     (T (point_predictions self net ds (other w)))) 0)) in *.
  assert (Herr : exists e,
            DeepARSpec.quantiles_frame format_4g self net ds (other w) ts_v d1
              quantiles = Raise e
            /\ exn_class e = "ValueError").
  { unfold DeepARSpec.quantiles_frame, rbind, reshape_rows. simpl. fold qp.
    destruct (Nat.eqb_spec (dim1 qp) 0) as [E|E]; [eauto|].
    unfold DataFrame_of_array. simpl.
    destruct (Nat.eqb_spec (dim1 qp) (length (index (df ts_v)))) as [E'|_];
      [exfalso; apply Hrows; exact E'|]. simpl. eauto. }
  destruct Herr as (e & Hq & Hclass).
  exists (mkWorld (<[ts := set_df ts_v d1]> (heap w))
            (state_after_interval self net ds quantiles (other w))
            (logs (called "forecast" w))), e, d1.
  split; [|split; [exact Hclass|split; [exact Hset|split; [reflexivity|]]]].
  - rewrite (forecast_prepared format_4g self ts true quantiles w ts_v pf ds net
               Hts Hpf Hds Hnet).
    unfold bind at 1. unfold lift at 1. rewrite Hset.
    unfold bind at 1. unfold write at 1, modify at 1. cbn [heap other logs].
    unfold bind at 1.
    erewrite add_quantile_columns_run
      by (cbn [heap]; apply lookup_insert_eq).
    cbn [other heap logs].
    unfold DeepARSpec.quantiles_frame, quantile_predictions in Hq.
    unfold DeepARSpec.quantile_columns.
    rewrite Hq. reflexivity.
  - unfold keys. simpl. apply keys_set_target_columns.
Qed.

Lemma key_leb_total (a b : column_key) :
  key_leb a b = false -> key_leb b a = true.
Proof.
  unfold key_leb. rewrite (String.compare_antisym (fst b) (fst a)).
  destruct (String.compare (fst a) (fst b)) eqn:E; simpl; try congruence.
  intros Hab. destruct (String.leb_total (snd a) (snd b)); congruence.
Qed.

Lemma insert_column_perm c cs : Permutation (insert_column c cs) (c :: cs).
Proof.
  induction cs as [|d ds IH]; simpl; [reflexivity|].
  destruct (key_leb (fst c) (fst d)); [reflexivity|].
  rewrite IH. apply perm_swap.
Qed.

Lemma sort_columns_perm cs : Permutation (foldr insert_column [] cs) cs.
Proof.
  induction cs as [|c cs IH]; simpl; [reflexivity|].
  rewrite insert_column_perm. now rewrite IH.
Qed.

Lemma insert_column_sorted c cs :
  Sorted (fun x y => key_leb (fst x) (fst y) = true) cs ->
  Sorted (fun x y => key_leb (fst x) (fst y) = true) (insert_column c cs).
Proof.
  induction cs as [|d ds IH]; simpl; intros Hs.
  - repeat constructor.
  - destruct (key_leb (fst c) (fst d)) eqn:E.
    + constructor; [exact Hs|]. now constructor.
    + apply Sorted_inv in Hs as [Hs Hhd]. constructor; [now apply IH|].
      destruct ds as [|d' ds']; simpl.
      * constructor. now apply key_leb_total.
      * destruct (key_leb (fst c) (fst d')); constructor.
        -- now apply key_leb_total.
        -- now apply HdRel_inv in Hhd.
Qed.

Lemma sort_columns_sorted cs :
  Sorted (fun x y => key_leb (fst x) (fst y) = true) (foldr insert_column [] cs).
Proof.
  induction cs as [|c cs IH]; simpl; [constructor|].
  now apply insert_column_sorted.
Qed.

(** X9: a successful interval forecast leaves the view with exactly its
    former columns and one column per (segment, quantile) pair, neither more
    nor fewer, ordered by label (segment first, then feature), when the
    inverse transforms of the view keep the columns. *)
Theorem forecast_interval_columns_sorted (self : Model) (ts : loc)
  (quantiles : list value) (w : W) (ts_v : TSDataset TimeSeriesDataSet)
  pf ds net :
  heap w !! ts = Some ts_v ->
  _get_pf_transform ts_v = Ok pf ->
  pf_dataset_predict pf = Some ds ->
  model self = Some net ->
  point_shape_ok self net ds (other w) (df ts_v) ->
  interval_shape_ok self net ds (other w) ts_v quantiles ->
  (forall l t d, transforms ts_v = Some l -> In t l ->
     columns (inverse_transform t d) = columns d) ->
  exists w' ts_v',
    forecast self ts true quantiles w = (w', Ok ts)
    /\ heap w' !! ts = Some ts_v'
    /\ Permutation (keys (df ts_v'))
         (keys (df ts_v)
          ++ from_product (segments ts_v)
               (DeepARSpec.quantile_columns format_4g quantiles))
    /\ Sorted (fun x y => key_leb (fst x) (fst y) = true) (columns (df ts_v')).
Proof.
  intros Hts Hpf Hds Hnet Hshape Hint Hinv.
  pose proof (loc_set_target_ok self net ds (other w) (df ts_v) Hshape) as Hset.
  set (d1 := mkDF (index (df ts_v))
               (set_target_columns (columns (df ts_v))
                  (tail_rows (len (df ts_v))
                     (T (point_predictions self net ds (other w)))) 0)) in *.
  assert (Hk1 : keys d1 = keys (df ts_v))
    by (unfold keys; simpl; apply keys_set_target_columns).
  assert (Hq := quantiles_frame_ok format_4g self net ds (other w) ts_v d1 quantiles
                  (proj1 Hshape) Hk1 eq_refl Hint).
  set (qdf := mkDF (index d1)
                (imap (fun j k => (k, column_of (quantile_array self net ds (other w) quantiles) j))
                   (from_product (segments ts_v)
                      (DeepARSpec.quantile_columns format_4g quantiles)))) in *.
  assert (Hcols :
    columns (df (TSDataset_inverse_transform
               (set_df ts_v (sort_index_columns (concat_columns d1 qdf)))))
    = columns (sort_index_columns (concat_columns d1 qdf))).
  { apply (inverse_transform_invariant (fun d => columns d = _)).
    - intros l t d0 Hl Ht Hd0. now rewrite (Hinv l t d0 Hl Ht).
    - reflexivity. }
  eexists. eexists. split; [|split; [|split]].
  - apply (forecast_interval_run format_4g self ts quantiles w ts_v pf ds net d1 qdf
             Hts Hpf Hds Hnet Hset Hq).
  - simpl. apply lookup_insert_eq.
  - unfold keys at 1. rewrite Hcols. simpl.
    rewrite sort_columns_perm, map_app.
    now rewrite keys_set_target_columns, keys_imap_columns.
  - rewrite Hcols. simpl. apply sort_columns_sorted.
Qed.

Lemma mode_kwargs_override (self : Model) (quantiles : list value) v :
  quantiles_kwargs self !! "quantiles" = Some v ->
  quantiles_kwargs self ∪ {[ "quantiles" := PFloats quantiles ]}
  = quantiles_kwargs self.
Proof.
  intros Hv. apply map_eq. intros k. rewrite lookup_union.
  destruct (decide (k = "quantiles")) as [->|Hne].
  - now rewrite Hv, lookup_singleton_eq.
  - rewrite lookup_singleton_ne by congruence.
    now destruct (quantiles_kwargs self !! k).
Qed.

(** X11: [quantiles_kwargs] wins over the argument: when the model was
    built with a ["quantiles"] entry in [quantiles_kwargs], the levels that
    the caller passes to [forecast] reach the result only through the names
    of the columns; two calls whose levels print to the same names give the
    same outcome. *)
Theorem forecast_quantiles_kwargs_override (self : Model) (ts : loc)
  (quantiles1 quantiles2 : list value) (w : W) v :
  quantiles_kwargs self !! "quantiles" = Some v ->
  DeepARSpec.quantile_columns format_4g quantiles1
  = DeepARSpec.quantile_columns format_4g quantiles2 ->
  forecast self ts true quantiles1 w = forecast self ts true quantiles2 w.
Proof.
  intros Hv Hnames.
  assert (Hadd : forall net dl,
            @add_quantile_columns TimeSeriesDataSet Other format_4g net self dl
              ts quantiles1
            = add_quantile_columns format_4g net self dl ts quantiles2).
  { intros net dl. unfold add_quantile_columns.
    rewrite !(mode_kwargs_override self _ v Hv).
    unfold DeepARSpec.quantile_columns in Hnames. now rewrite Hnames. }
  unfold DeepAR.forecast, log_decorator, bind.
  destruct (log _ w) as [w0 [u|e]]; [|reflexivity].
  destruct (read ts w0) as [w1 [ts_v|e]]; [|reflexivity].
  destruct (lift (_get_pf_transform ts_v) w1) as [w2 [pf|e]]; [|reflexivity].
  destruct (pf_dataset_predict pf) as [ds|]; [|reflexivity].
  destruct (model self) as [net|]; [|reflexivity].
  destruct (draw _ w2) as [w2' [p|e]]; [|reflexivity].
  destruct (lift _ w2') as [w3 [d1|e]]; [|reflexivity].
  destruct (write ts _ w3) as [w4 [u'|e]]; [|reflexivity].
  now rewrite Hadd.
Qed.

End DeepARFurther.


(* ===================================================================== *)
(** * Further properties of the interval outliers *)
(* ===================================================================== *)

Section OutlierFurther.
Import Outliers OutliersSpec.
Context {TimeSeriesDataSet Other : Type}.

#[local] Abbreviation W' := (World TimeSeriesDataSet Other).

Lemma relabel_columns (cs : list (column_key * list value)) :
  zip_with (fun (k : column_key) (c : column_key * list value) => (k, snd c))
    (map (fun x : column_key => (fst x, "target")) (map fst cs)) cs
  = map (fun c => ((fst (fst c), "target"), snd c)) cs.
Proof.
  induction cs as [|c cs IH]; simpl; [reflexivity|]. now rewrite IH.
Qed.

Lemma find_column_relabel (cs : list (column_key * list value)) column s :
  find_column
    (map (fun c : column_key * list value => ((fst (fst c), "target"), snd c))
       (List.filter (fun c : column_key * list value =>
                       String.eqb (snd (fst c)) column) cs))
    (s, "target")
  = find_column cs (s, column).
Proof.
  induction cs as [|[[s' f'] vs] cs IH]; simpl; [reflexivity|].
  destruct (String.eqb f' column) eqn:E; simpl.
  - unfold key_eqb. simpl. rewrite E, IH. simpl.
    now rewrite andb_true_r.
  - unfold key_eqb. simpl. rewrite E, IH. now rewrite andb_false_r.
Qed.

Lemma set_columns_relabel (d : DataFrame) :
  set_columns d (map (fun x => (fst x, "target")) (keys d))
  = mkDF (index d) (map (fun c => ((fst (fst c), "target"), snd c)) (columns d)).
Proof. unfold set_columns, keys. f_equal. apply relabel_columns. Qed.

Lemma getitem_feature_cases (d : DataFrame) (column : string) :
  (getitem_feature d column = Raise (KeyError column)
   /\ forall s vs, ~ In ((s, column), vs) (columns d))
  \/ (exists cs,
        getitem_feature d column = Ok (mkDF (index d) cs)
        /\ cs = List.filter (fun c : column_key * list value =>
                               String.eqb (snd (fst c)) column) (columns d)
        /\ cs <> []).
Proof.
  unfold getitem_feature.
  match goal with
  | |- context [List.filter ?g ?l] =>
      assert (Hdef : List.filter g l
                     = List.filter (fun c : column_key * list value =>
                                      String.eqb (snd (fst c)) column) (columns d))
        by reflexivity;
      destruct (List.filter g l) as [|c cs]
  end.
  - left. split; [reflexivity|]. intros s vs Hin.
    assert (Hc : In ((s, column), vs) []); [|destruct Hc].
    rewrite Hdef. apply filter_In. split; [exact Hin|]. simpl.
    apply String.eqb_refl.
  - right. exists (c :: cs). split; [reflexivity|]. split; [exact Hdef|discriminate].
Qed.

Lemma create_ts_by_column_run (ts : loc) (column : string) (w : W')
  (ts_v : TSDataset TimeSeriesDataSet) (s0 : string) (vs0 : list value) :
  heap w !! ts = Some ts_v ->
  In ((s0, column), vs0) (columns (df ts_v)) ->
  exists l new_v,
    create_ts_by_column ts column w
    = (mkWorld (<[l := new_v]> (heap w)) (other w) (logs w), Ok l)
    /\ heap w !! l = None
    /\ index (df new_v) = index (df ts_v)
    /\ freq new_v = freq ts_v
    /\ transforms new_v = None
    /\ (forall s, find_column (columns (df new_v)) (s, "target")
                  = find_column (columns (df ts_v)) (s, column))
    /\ (forall k, In k (keys (df new_v)) -> is_target k = true)
    /\ (forall s, In s (segments new_v)
                  <-> exists vs, In ((s, column), vs) (columns (df ts_v))).
Proof.
  intros Hts Hin.
  unfold create_ts_by_column, bind, read, lift, TSDataset_new, alloc.
  rewrite Hts.
  destruct (getitem_feature_cases (df ts_v) column)
    as [[_ Hnone]|(cs & Hg & Hcs & _)]; [destruct (Hnone s0 vs0 Hin)|].
  rewrite Hg. cbv zeta. rewrite set_columns_relabel.
  eexists. eexists. split; [reflexivity|].
  split.
  { apply not_elem_of_dom. apply is_fresh. }
  split; [reflexivity|]. split; [reflexivity|]. split; [reflexivity|].
  cbn [df columns index]. subst cs.
  split; [|split].
  - intros s. apply find_column_relabel.
  - intros k. unfold keys. cbn [columns]. rewrite map_map. intros Hk.
    apply in_map_iff in Hk as (c' & <- & _). reflexivity.
  - intros s. unfold segments, keys. cbn [df columns].
    rewrite In_unique, !map_map. simpl.
    rewrite in_map_iff. split.
    + intros ([[s' f'] vs] & <- & Hc). apply filter_In in Hc as [Hc Hf].
      simpl in Hf. apply String.eqb_eq in Hf. subst f'. simpl. eauto.
    + intros (vs & Hvs). exists ((s, column), vs). split; [reflexivity|].
      apply filter_In. split; [exact Hvs|]. simpl. apply String.eqb_refl.
Qed.

(** X12: [create_ts_by_column] makes a new dataset object and leaves every
    existing one alone; the new dataset has the frequency of the original,
    every one of its columns is labelled ["target"], and its segments are
    the segments of the original that have the column. *)
Theorem create_ts_by_column_spec (ts : loc) (column : string) (w : W')
  (ts_v : TSDataset TimeSeriesDataSet) (s0 : string) (vs0 : list value) :
  heap w !! ts = Some ts_v ->
  In ((s0, column), vs0) (columns (df ts_v)) ->
  exists l new_v,
    create_ts_by_column ts column w
    = (mkWorld (<[l := new_v]> (heap w)) (other w) (logs w), Ok l)
    /\ heap w !! l = None
    /\ freq new_v = freq ts_v
    /\ (forall k, In k (keys (df new_v)) -> snd k = "target")
    /\ (forall s, In s (segments new_v)
                  <-> exists vs, In ((s, column), vs) (columns (df ts_v))).
Proof.
  intros Hts Hin.
  destruct (create_ts_by_column_run ts column w ts_v s0 vs0 Hts Hin)
    as (l & new_v & Hrun & Hfresh & _ & Hfreq & _ & _ & Hkeys & Hsegs).
  exists l, new_v. split; [exact Hrun|]. split; [exact Hfresh|].
  split; [exact Hfreq|]. split; [|exact Hsegs].
  intros k Hk. apply Hkeys in Hk. unfold is_target in Hk.
  now apply String.eqb_eq in Hk.
Qed.

Lemma bind_Raise {A B} (c : M W' A) (k : A -> M W' B) w w1 e :
  c w = (w1, Raise e) -> bind c k w = (w1, Raise e).
Proof. unfold bind. now intros ->. Qed.

Lemma bind_Ok {A B} (c : M W' A) (k : A -> M W' B) w w1 a :
  c w = (w1, Ok a) -> bind c k w = k a w1.
Proof. unfold bind. now intros ->. Qed.

(** X13: nothing in [get_anomalies_confidence_interval] catches an
    exception: an exception of the column projection, of the
    constructor of the model, of its [fit] (called on the analysed dataset)
    or of its forecast (called on the deep copy, with the interval switched
    on and the given width) ends the call with that exception, and no report
    is returned. *)
Theorem get_anomalies_propagates (ts : loc)
  (model : ModelClass TimeSeriesDataSet Other)
  (interval_width : value) (in_column : string) (w : W') :
  let prepare : M W' loc :=
    if String.eqb in_column "target" then ret ts
    else create_ts_by_column ts in_column in
  let run := get_anomalies_confidence_interval ts model interval_width in_column in
  (forall w1 e, prepare w = (w1, Raise e) -> run w = (w1, Raise e))
  /\ (forall w1 inner ts_v,
        prepare w = (w1, Ok inner) ->
        heap w1 !! ts = Some ts_v ->
        (forall o e,
           model (other w1) = (o, Raise e) ->
           run w = (mkWorld (heap w1) o (logs w1), Raise e))
        /\ (forall o mi w3 e,
              model (other w1) = (o, Ok mi) ->
              im_fit mi inner (mkWorld (heap w1) o (logs w1)) = (w3, Raise e) ->
              run w = (w3, Raise e))
        /\ (forall o mi w3 u w4 copy w5 e,
              model (other w1) = (o, Ok mi) ->
              im_fit mi inner (mkWorld (heap w1) o (logs w1)) = (w3, Ok u) ->
              deepcopy inner w3 = (w4, Ok copy) ->
              im_forecast mi copy true interval_width w4 = (w5, Raise e) ->
              run w = (w5, Raise e))).
Proof.
  intros prepare run. unfold run, get_anomalies_confidence_interval.
  split.
  - intros w1 e Hprep. apply bind_Raise. unfold predict_interval.
    apply bind_Raise. exact Hprep.
  - intros w1 inner ts_v Hprep Hts.
    assert (Hread : read ts w1 = (w1, Ok ts_v)) by (unfold read; now rewrite Hts).
    split; [|split].
    + intros o e Hmodel. apply bind_Raise. unfold predict_interval.
      rewrite (bind_Ok _ _ _ _ _ Hprep), (bind_Ok _ _ _ _ _ Hread).
      apply bind_Raise. unfold construct. now rewrite Hmodel.
    + intros o mi w3 e Hmodel Hfit. apply bind_Raise. unfold predict_interval.
      rewrite (bind_Ok _ _ _ _ _ Hprep), (bind_Ok _ _ _ _ _ Hread).
      assert (Hc : construct model w1 = (mkWorld (heap w1) o (logs w1), Ok mi))
        by (unfold construct; now rewrite Hmodel).
      rewrite (bind_Ok _ _ _ _ _ Hc). apply bind_Raise. exact Hfit.
    + intros o mi w3 u w4 copy w5 e Hmodel Hfit Hcopy Hfc.
      apply bind_Raise. unfold predict_interval.
      rewrite (bind_Ok _ _ _ _ _ Hprep), (bind_Ok _ _ _ _ _ Hread).
      assert (Hc : construct model w1 = (mkWorld (heap w1) o (logs w1), Ok mi))
        by (unfold construct; now rewrite Hmodel).
      rewrite (bind_Ok _ _ _ _ _ Hc), (bind_Ok _ _ _ _ _ Hfit),
        (bind_Ok _ _ _ _ _ Hcopy).
      apply bind_Raise. exact Hfc.
Qed.

Lemma SFcompare_refl (x : spec_float) :
  x <> S754_nan -> SFcompare x x = Some Eq.
Proof.
  destruct x as [sx|sx| |sx mx ex]; simpl; intros Hx; try congruence.
  - now destruct sx.
  - destruct sx; rewrite Z.compare_refl, Pos.compare_cont_refl; reflexivity.
Qed.

Lemma SFcompare_nan_r (x : spec_float) : SFcompare x S754_nan = None.
Proof. now destruct x. Qed.

(** A NaN, the value that is not equal to itself, is neither less nor
    greater than anything. *)
Lemma nan_compares_false (a b : value) :
  PrimFloat.eqb a a = false -> gt a b = false /\ lt a b = false
                               /\ gt b a = false /\ lt b a = false.
Proof.
  rewrite FloatAxioms.eqb_spec. unfold SFeqb. intros Hnan.
  assert (Ha : Prim2SF a = S754_nan).
  { destruct (Prim2SF a) as [sx|sx| |sx mx ex] eqn:E; try reflexivity;
      rewrite SFcompare_refl in Hnan by discriminate; discriminate. }
  unfold gt, lt. rewrite !FloatAxioms.ltb_spec. unfold SFltb.
  rewrite Ha, SFcompare_nan_r. simpl. tauto.
Qed.

Lemma classic_segment (d : DataFrame) (segment : string) :
  (forall f vs, ~ In ((segment, f), vs) (columns d))
  \/ (exists f vs, In ((segment, f), vs) (columns d)).
Proof.
  induction (columns d) as [|[[s f] vs] cs IH]; [left; intros f vs []|].
  destruct (String.string_dec s segment) as [->|Hne].
  - right. exists f, vs. now left.
  - destruct IH as [Hnone|(f' & vs' & Hin)].
    + left. intros f' vs' [[= -> _ _]|Hin]; [congruence|]. exact (Hnone f' vs' Hin).
    + right. exists f', vs'. now right.
Qed.

Lemma find_column_of_In cs k vs :
  In (k, vs) cs -> exists vs', find_column cs k = Some vs'.
Proof.
  induction cs as [|[k' vs'] cs IH]; simpl; [tauto|].
  intros [[= -> ->]|Hin].
  - rewrite key_eqb_refl. eauto.
  - destruct (key_eqb k' k); eauto.
Qed.

Lemma getitem_segment_cases (d : DataFrame) (segment : string) :
  (getitem_segment d segment = Raise (KeyError segment)
   /\ forall f vs, ~ In ((segment, f), vs) (columns d))
  \/ ((exists f vs, In ((segment, f), vs) (columns d))
      /\ exists slice,
           getitem_segment d segment = Ok slice
           /\ forall g, get_column slice (segment, g) = get_column d (segment, g)).
Proof.
  destruct (classic_segment d segment) as [Hnone|(f & vs & Hin)].
  - left. split; [|exact Hnone]. unfold getitem_segment.
    match goal with
    | |- context [List.filter ?g ?l] =>
        assert (Hdef : List.filter g l
                       = List.filter (fun c : column_key * list value =>
                                        String.eqb (fst (fst c)) segment)
                           (columns d)) by reflexivity;
        destruct (List.filter g l) as [|[[s f] vs] cs]
    end; [reflexivity|].
    exfalso.
    assert (Hc : In ((s, f), vs)
                   (List.filter (fun c : column_key * list value =>
                                   String.eqb (fst (fst c)) segment)
                      (columns d)))
      by (rewrite <- Hdef; now left).
    apply filter_In in Hc as [Hc Hs]. simpl in Hs.
    apply String.eqb_eq in Hs. subst s. exact (Hnone f vs Hc).
  - right. split; [eauto|].
    destruct (find_column_of_In _ _ _ Hin) as [vs' Hfind].
    apply (getitem_segment_get_column d segment f vs').
    unfold get_column. now rewrite Hfind.
Qed.

Lemma outliers_loop_first_error time_points d pre s post acc e :
  (forall s', In s' pre -> exists out, segment_outliers time_points d s' = Ok out) ->
  segment_outliers time_points d s = Raise e ->
  outliers_loop time_points d (pre ++ s :: post) acc = Raise e.
Proof.
  revert acc. induction pre as [|s0 pre IH]; intros acc Hpre Hs; simpl.
  - now rewrite Hs.
  - destruct (Hpre s0) as [out ->]; [now left|]. simpl.
    apply IH; [|exact Hs]. intros s' Hs'. apply Hpre. now right.
Qed.

(** X14: the report is all or nothing: when the body of the loop fails for
    a segment of the analysed dataset, the call raises the exception of the
    first such segment, and the lists already computed for earlier segments
    are not returned. *)
Theorem get_anomalies_all_or_nothing (ts : loc)
  (model : ModelClass TimeSeriesDataSet Other)
  (interval_width : value) (in_column : string) (w w' : W')
  (inner_v ci_v : TSDataset TimeSeriesDataSet)
  (tp : list timestamp) (inner ci : loc) pre s post e :
  predict_interval ts model interval_width in_column w = (w', Ok (tp, inner, ci)) ->
  heap w' !! inner = Some inner_v ->
  heap w' !! ci = Some ci_v ->
  segments inner_v = pre ++ s :: post ->
  (forall s', In s' pre -> exists out, segment_outliers tp (df ci_v) s' = Ok out) ->
  segment_outliers tp (df ci_v) s = Raise e ->
  get_anomalies_confidence_interval ts model interval_width in_column w
  = (w', Raise e).
Proof.
  intros Hrun Hinner Hci Hsegs Hpre Hs.
  unfold get_anomalies_confidence_interval.
  rewrite (bind_Ok _ _ _ _ _ Hrun). unfold bind, read, lift.
  rewrite Hinner, Hci, Hsegs.
  now rewrite (outliers_loop_first_error tp (df ci_v) pre s post ∅ e Hpre Hs).
Qed.

Lemma segment_outliers_inv time_points d segment out :
  segment_outliers time_points d segment = Ok out ->
  exists t u l,
    get_column d (segment, "target") = Ok t
    /\ get_column d (segment, "target_upper") = Ok u
    /\ get_column d (segment, "target_lower") = Ok l
    /\ out = flagged time_points t u l.
Proof.
  unfold segment_outliers.
  destruct (getitem_segment_cases d segment)
    as [[-> _]|[_ (slice & -> & Hslice)]]; [discriminate|].
  simpl. rewrite !Hslice.
  destruct (get_column d (segment, "target")) as [t|]; [|discriminate].
  destruct (get_column d (segment, "target_upper")) as [u|]; [|discriminate].
  destruct (get_column d (segment, "target_lower")) as [l|]; [|discriminate].
  simpl. unfold boolean_index.
  destruct (_ =? _)%nat; [|discriminate].
  intros [= <-]. exists t, u, l. repeat split; reflexivity.
Qed.

(** X15: missing values are never reported: a time stamp at whose row the
    target is NaN, or both bounds are NaN, is not in the list of the
    segment (for a time index without repeated stamps). *)
Theorem nan_never_flagged (time_points : list timestamp) (d : DataFrame)
  (segment : string) (out : list timestamp)
  (t u l : list value) (i : nat) (x : timestamp) (a hi lo : value) :
  segment_outliers time_points d segment = Ok out ->
  get_column d (segment, "target") = Ok t ->
  get_column d (segment, "target_upper") = Ok u ->
  get_column d (segment, "target_lower") = Ok l ->
  NoDup time_points ->
  time_points !! i = Some x ->
  t !! i = Some a -> u !! i = Some hi -> l !! i = Some lo ->
  PrimFloat.eqb a a = false
  \/ (PrimFloat.eqb hi hi = false /\ PrimFloat.eqb lo lo = false) ->
  ~ In x out.
Proof.
  intros Hrun Ht Hu Hl Hnd Hx Ha Hhi Hlo Hnan Hin.
  apply segment_outliers_inv in Hrun as (t' & u' & l' & Ht' & Hu' & Hl' & ->).
  assert (t' = t) as -> by congruence.
  assert (u' = u) as -> by congruence.
  assert (l' = l) as -> by congruence.
  apply In_flagged in Hin as (j & a' & hi' & lo' & Hx' & Ha' & Hhi' & Hlo' & Hor).
  assert (j = i) as -> by (eapply NoDup_lookup; eassumption).
  assert (a' = a) as -> by congruence.
  assert (hi' = hi) as -> by congruence.
  assert (lo' = lo) as -> by congruence.
  destruct Hnan as [Hnan|[Hnhi Hnlo]].
  - destruct (nan_compares_false a hi Hnan) as (Hgt & _).
    destruct (nan_compares_false a lo Hnan) as (_ & Hlt & _).
    destruct Hor; congruence.
  - destruct (nan_compares_false hi a Hnhi) as (_ & _ & Hgt & _).
    destruct (nan_compares_false lo a Hnlo) as (_ & _ & _ & Hlt).
    destruct Hor; congruence.
Qed.

End OutlierFurther.

(* ===================================================================== *)
(** * The further properties on the concrete instances *)
(* ===================================================================== *)

Section EnsembleFurtherWitnesses.
Import EnsembleMixin EnsembleExamples.

Lemma get_horizon_sound_witness :
  [sample_pipeline 5 true; sample_pipeline 5 false] <> []
  /\ forall p, In p [sample_pipeline 5 true; sample_pipeline 5 false] ->
       horizon p = 5%Z.
Proof.
  apply (get_horizon_sound [sample_pipeline 5 true; sample_pipeline 5 false] 5%Z).
  vm_compute. reflexivity.
Defined.

Lemma validated_get_horizon_witness :
  (exists p0 rest,
     [sample_pipeline 5 true; sample_pipeline 5 false] = p0 :: rest
     /\ _get_horizon [sample_pipeline 5 true; sample_pipeline 5 false]
        = Ok (horizon p0)
     /\ forall p, In p [sample_pipeline 5 true; sample_pipeline 5 false] ->
          horizon p = horizon p0)
  \/ _get_horizon [sample_pipeline 5 true; sample_pipeline 5 false]
     = Raise (ValueError "All the pipelines should have the same horizon.").
Proof.
  apply (validated_get_horizon [sample_pipeline 5 true; sample_pipeline 5 false]).
  reflexivity.
Defined.

End EnsembleFurtherWitnesses.

Section DeepARFurtherWitnesses.
Import DeepAR DeepARSpec DeepARExamples.

Lemma sample_prefix_shape_ok net_p0 net_p1 :
  point_shape_ok (sample_model (sample_net net_p0 net_p1))
    (sample_net net_p0 net_p1) 1%nat tt (df sample_prefix_view).
Proof. unfold point_shape_ok. simpl. unfold len. simpl. lia. Qed.

Lemma sample_suffix_shape_ok net_p0 net_p1 :
  point_shape_ok (sample_model (sample_net net_p0 net_p1))
    (sample_net net_p0 net_p1) 1%nat tt (df sample_suffix_view).
Proof. unfold point_shape_ok. simpl. unfold len. simpl. lia. Qed.

Lemma fit_then_forecast_witness :
  exists w1 self' w2,
    fit (fun _ _ o => (sample_net 25%float 26%float, o))
      (__init__ None None None None None) 0%nat (sample_world sample_view)
    = (w1, Ok self')
    /\ heap w1 = heap (sample_world sample_view)
    /\ forecast sample_format self' 0%nat false [0.025%float; 0.975%float] w1
       = (w2, Ok 0%nat).
Proof.
  pose (train := fun (_ : DeepARModel nat unit) (_ : DataLoader nat) (o : unit) =>
                   (sample_net 25%float 26%float, o)).
  pose (run := fit (Other := unit) train (__init__ None None None None None)
                 0%nat (sample_world sample_view)).
  destruct (fit_then_forecast sample_format train
              (__init__ None None None None None)
              (sample_model (sample_net 25%float 26%float)) 0%nat 0%nat
              [0.025%float; 0.975%float] (sample_world sample_view) (fst run)
              sample_view (mkPFT 0%nat (Some 1%nat)) 1%nat)
    as (Hheap & net & Hnet & Hfc); try reflexivity.
  injection Hnet as <-.
  destruct (Hfc (sample_point_shape_ok 25%float 26%float)) as [w2 Hw2].
  exists (fst run), (sample_model (sample_net 25%float 26%float)), w2.
  split; [reflexivity|]. split; [exact Hheap|exact Hw2].
Defined.

Lemma forecast_view_errors_witness :
  forecast sample_format (sample_model (sample_net 25%float 26%float)) 0%nat
    false [0.025%float; 0.975%float] (sample_world bare_view)
  = (called "forecast" (sample_world bare_view),
     Raise (IndexError "list index out of range"))
  /\ forecast sample_format (sample_model (sample_net 25%float 26%float)) 0%nat
       true [0.025%float; 0.975%float] (sample_world unprepared_view)
     = (called "forecast" (sample_world unprepared_view),
        Raise (ValueError
          "The future is not generated! Generate future using TSDataset make_future before calling forecast method!")).
Proof.
  split.
  - apply (proj1 (forecast_view_errors sample_format
                    (sample_model (sample_net 25%float 26%float)) 0%nat false
                    [0.025%float; 0.975%float] (sample_world bare_view)
                    bare_view eq_refl)).
    reflexivity.
  - apply (proj1 (proj2 (forecast_view_errors sample_format
                    (sample_model (sample_net 25%float 26%float)) 0%nat true
                    [0.025%float; 0.975%float] (sample_world unprepared_view)
                    unprepared_view eq_refl))
             (mkPFT 0%nat None)); reflexivity.
Defined.

(** The view of the first row alone receives the last prediction, 26. *)
Lemma forecast_point_values_witness :
  exists w' ts_v' target,
    forecast sample_format (sample_model (sample_net 25%float 26%float)) 0%nat
      false [0.025%float; 0.975%float] (sample_world sample_prefix_view)
    = (w', Ok 0%nat)
    /\ heap w' !! 0%nat = Some ts_v'
    /\ get_column (df ts_v') ("a", "target") = Ok target
    /\ target !! 0%nat = Some 26%float.
Proof.
  destruct (forecast_point_values sample_format
              (sample_model (sample_net 25%float 26%float)) 0%nat
              [0.025%float; 0.975%float] (sample_world sample_prefix_view)
              sample_prefix_view (mkPFT 0%nat (Some 1%nat)) 1%nat
              (sample_net 25%float 26%float))
    as (w' & ts_v' & Hrun & Hheap & Hvals).
  - reflexivity.
  - reflexivity.
  - reflexivity.
  - reflexivity.
  - apply sample_prefix_shape_ok.
  - intros l t [= <-] [<-|[]] d k. reflexivity.
  - reflexivity.
  - destruct (Hvals 0%nat "a" 0%nat) as (target & Hcol & Hcell).
    + reflexivity.
    + unfold len. simpl. lia.
    + exists w', ts_v', target.
      split; [exact Hrun|]. split; [exact Hheap|]. split; [exact Hcol|].
      exact Hcell.
Defined.

(** The interval forecast of the last row alone fails: the network predicts
    two steps for a view of one row. *)
Lemma forecast_interval_shape_mismatch_witness :
  exists w' e ts_v',
    forecast sample_format (sample_model (sample_net 25%float 26%float)) 0%nat
      true [0.025%float; 0.975%float] (sample_world sample_suffix_view)
    = (w', Raise e)
    /\ exn_class e = "ValueError"
    /\ heap w' !! 0%nat = Some ts_v'
    /\ keys (df ts_v') = [("a", "feature"); ("a", "target")].
Proof.
  destruct (forecast_interval_shape_mismatch sample_format
              (sample_model (sample_net 25%float 26%float)) 0%nat
              [0.025%float; 0.975%float] (sample_world sample_suffix_view)
              sample_suffix_view (mkPFT 0%nat (Some 1%nat)) 1%nat
              (sample_net 25%float 26%float))
    as (w' & e & d1 & Hrun & Hclass & Hd1 & Hheap & Hkeys).
  - reflexivity.
  - reflexivity.
  - reflexivity.
  - reflexivity.
  - apply sample_suffix_shape_ok.
  - unfold len. simpl. lia.
  - exists w', e, (set_df sample_suffix_view d1).
    split; [exact Hrun|]. split; [exact Hclass|].
    split; [rewrite Hheap; apply lookup_insert_eq|exact Hkeys].
Defined.

Lemma forecast_interval_columns_sorted_witness :
  exists w' ts_v',
    forecast sample_format (sample_model (sample_net 25%float 26%float)) 0%nat
      true [0.025%float; 0.975%float] (sample_world sample_view)
    = (w', Ok 0%nat)
    /\ heap w' !! 0%nat = Some ts_v'
    /\ Permutation (keys (df ts_v'))
         [("a", "feature"); ("a", "target");
          ("a", "target_0.025"); ("a", "target_0.975")]
    /\ Sorted (fun x y => key_leb (fst x) (fst y) = true) (columns (df ts_v')).
Proof.
  apply (forecast_interval_columns_sorted sample_format
           (sample_model (sample_net 25%float 26%float)) 0%nat
           [0.025%float; 0.975%float] (sample_world sample_view)
           sample_view (mkPFT 0%nat (Some 1%nat)) 1%nat
           (sample_net 25%float 26%float)).
  - reflexivity.
  - reflexivity.
  - reflexivity.
  - reflexivity.
  - apply sample_point_shape_ok.
  - apply sample_interval_shape_ok.
  - intros l t d [= <-] [<-|[]]. reflexivity.
Defined.

(** Two calls that differ in the upper level passed, 0.975 and 0.97500001:
    both print as 0.975, and the model was built with its own levels. *)
Lemma forecast_quantiles_kwargs_override_witness :
  forecast rounding_format (kwargs_model (sample_net 25%float 26%float)) 0%nat
    true [0.025%float; 0.975%float] (sample_world sample_view)
  = forecast rounding_format (kwargs_model (sample_net 25%float 26%float)) 0%nat
      true [0.025%float; 0.97500001%float] (sample_world sample_view).
Proof.
  apply (forecast_quantiles_kwargs_override rounding_format
           (kwargs_model (sample_net 25%float 26%float)) 0%nat
           [0.025%float; 0.975%float] [0.025%float; 0.97500001%float]
           (sample_world sample_view)
           (PFloats [0.025%float; 0.975%float])).
  - apply lookup_singleton_eq.
  - reflexivity.
Defined.

End DeepARFurtherWitnesses.

Section OutlierFurtherWitnesses.
Import Outliers OutliersSpec OutlierExamples.

Lemma create_ts_by_column_spec_witness :
  exists l new_v,
    create_ts_by_column 0%nat "exog" sample_store
    = (mkWorld (<[l := new_v]> (heap sample_store)) tt [], Ok l)
    /\ heap sample_store !! l = None
    /\ freq new_v = "D"
    /\ (forall k, In k (keys (df new_v)) -> snd k = "target")
    /\ In "a" (segments new_v).
Proof.
  destruct (create_ts_by_column_spec 0%nat "exog" sample_store sample_history
              "a" [10%float; 0%float; 10%float])
    as (l & new_v & Hrun & Hfresh & Hfreq & Hkeys & Hsegs).
  - reflexivity.
  - simpl. now left.
  - exists l, new_v. split; [exact Hrun|]. split; [exact Hfresh|].
    split; [exact Hfreq|]. split; [exact Hkeys|].
    apply Hsegs. exists [10%float; 0%float; 10%float]. simpl. now left.
Defined.

(** The constructor of the model raises: the call ends with its exception. *)
Lemma get_anomalies_propagates_witness :
  get_anomalies_confidence_interval 0%nat failing_class 0.95%float "target"
    sample_store
  = (sample_store, Raise (ValueError "unknown parameter")).
Proof.
  destruct (get_anomalies_propagates 0%nat failing_class 0.95%float "target"
              sample_store) as [_ Hrest].
  destruct (Hrest sample_store 0%nat sample_history eq_refl eq_refl)
    as (Hmodel & _).
  apply (Hmodel tt (ValueError "unknown parameter")). reflexivity.
Defined.

(** Two segments, of which the forecast gives bounds to the first alone: the
    body of the loop computes the list of ["a"] and fails for ["b"]; the
    call raises the exception of ["b"], and the list of ["a"] is lost. *)
Lemma get_anomalies_all_or_nothing_witness :
  exists w' ci_v,
    heap w' !! 1%nat = Some ci_v
    /\ segment_outliers [1%Z; 2%Z; 3%Z] (df ci_v) "a" = Ok [2%Z; 3%Z]
    /\ segment_outliers [1%Z; 2%Z; 3%Z] (df ci_v) "b"
       = Raise (KeyError "target_upper")
    /\ get_anomalies_confidence_interval 0%nat partial_class 0.95%float "target"
         two_segment_store
       = (w', Raise (KeyError "target_upper")).
Proof.
  pose (run := predict_interval 0%nat partial_class 0.95%float "target"
                 two_segment_store).
  pose (ci_v := mkTS (mkDF [1%Z; 2%Z; 3%Z]
                  [(("a", "target"), [5%float; 50%float; (-3)%float]);
                   (("b", "target"), [1%float; 2%float; 3%float]);
                   (("a", "target_lower"), [0%float; 0%float; 0%float]);
                   (("a", "target_upper"), [10%float; 10%float; 10%float])])
                None "D" : TSDataset nat).
  exists (fst run), ci_v.
  split; [reflexivity|]. split; [reflexivity|]. split; [reflexivity|].
  apply (get_anomalies_all_or_nothing 0%nat partial_class 0.95%float "target"
           two_segment_store (fst run) two_segment_history ci_v
           [1%Z; 2%Z; 3%Z] 0%nat 1%nat ["a"] "b" []).
  - reflexivity.
  - reflexivity.
  - reflexivity.
  - reflexivity.
  - intros s' [<-|[]]. exists [2%Z; 3%Z]. reflexivity.
  - reflexivity.
Defined.

(** The first time stamp, where the target is missing, is not reported; the
    list of the segment holds the second alone. *)
Lemma nan_never_flagged_witness :
  segment_outliers [1%Z; 2%Z] gappy_frame "a" = Ok [2%Z]
  /\ ~ In 1%Z [2%Z].
Proof.
  split; [reflexivity|].
  apply (nan_never_flagged [1%Z; 2%Z] gappy_frame "a" [2%Z]
           [nan; 50%float] [10%float; 10%float] [0%float; 0%float]
           0%nat 1%Z nan 10%float 0%float); try reflexivity.
  - apply NoDup_cons. split; [|apply NoDup_singleton].
    intros H. apply list_elem_of_singleton in H. discriminate H.
  - left. reflexivity.
Defined.

End OutlierFurtherWitnesses.
